(** * ProjectContext: the project store of AISCHOLARPRO

    A shallow embedding of [src/contexts/ProjectContext.tsx]: the React
    provider that holds the active academic project, mirrors it into
    [localStorage], and offers creation, import, export, reset and a
    cooldown flag.

    Conventions of the embedding.
    - JavaScript values that can occur in a project are JSON values
      ([JValue]); a project ([ProjectData]) is the property list of a JS
      object, in enumeration order.  Numbers are modelled as integers.
    - A JavaScript string is modelled by the bytes of its UTF-8 encoding.
      The regular expressions of the component name ASCII characters only,
      and every byte of a non-ASCII character is outside ASCII, so they act
      on the bytes as they act on the code units.
    - The engine's [JSON.parse], [JSON.stringify] and
      [String.prototype.toLowerCase] are parameters of the provider.  The
      development also has a reference implementation of each, used to run
      the handlers on concrete inputs; the reference [toLowerCase] lowers
      the ASCII letters, which is what the engine does on ASCII text.
    - Handlers run in a state-and-exception monad [M] over a [World] that
      carries the three React state cells together with the browser
      facilities the component touches (storage, dialogs, console,
      downloads, timers).
    - React state is compared by value (projects are replaced wholesale,
      never patched in place), so a dependency of an effect has changed
      exactly when its value has. *)

From Stdlib Require Import ZArith String Ascii List Bool Lia.
From Stdlib Require Import DecimalString DecimalFacts DecimalPos DecimalZ.
From stdpp Require Import base option list gmap strings.

Local Open Scope string_scope.
Local Open Scope Z_scope.
Local Set Warnings "-register-all".

(** ** JavaScript values *)

Inductive JValue : Type :=
| JNull
| JBool (b : bool)
| JNumber (n : Z)
| JString (s : string)
| JArray (xs : list JValue)
| JObject (props : list (string * JValue)).

(** Own properties of an object, in enumeration order.  (JavaScript
    enumerates keys that look like array indices first; the keys this
    component reads and writes are ordinary names.) *)
Abbreviation JObj := (list (string * JValue)).

(** The TypeScript type [ProjectData]: at run time, a plain object. *)
Abbreviation ProjectData := (list (string * JValue)).

(** Thrown values: every value thrown in this file is an [Error]. *)
Record Exn : Type := mkExn { exn_name : string; message : string }.

Module JS.

(** ToBoolean on a JSON value. *)
Definition truthy (v : JValue) : bool :=
  match v with
  | JNull => false
  | JBool b => b
  | JNumber n => negb (n =? 0)
  | JString s => negb (String.eqb s EmptyString)
  | JArray _ => true
  | JObject _ => true
  end.

(** ToBoolean on the result of a property read; [None] is [undefined]. *)
Definition truthy_prop (p : option JValue) : bool :=
  match p with
  | Some v => truthy v
  | None => false
  end.

(** [o.k] on an object: the own property, or [undefined]. *)
Fixpoint get (k : string) (o : JObj) : option JValue :=
  match o with
  | [] => None
  | (k', v) :: o' => if String.eqb k k' then Some v else get k o'
  end.

(** [v.k] where reading it does not throw: only objects carry the
    names this component reads. *)
Definition field (v : JValue) (k : string) : option JValue :=
  match v with
  | JObject o => get k o
  | _ => None
  end.

(** [o.k = v] on an object: an existing property keeps its place, a new
    one is added last. *)
Fixpoint set (k : string) (v : JValue) (o : JObj) : JObj :=
  match o with
  | [] => [(k, v)]
  | (k', v') :: o' =>
      if String.eqb k k' then (k', v) :: o' else (k', v') :: set k v o'
  end.

(** Rest destructuring [{ k1, k2, ...rest }]: the properties not named. *)
Definition omit (ks : list string) (o : JObj) : JObj :=
  List.filter (fun kv => negb (existsb (String.eqb (fst kv)) ks)) o.

(** Structural equality of values. *)
Fixpoint eqb (a b : JValue) {struct a} : bool :=
  let fix eqb_list (xs ys : list JValue) {struct xs} : bool :=
    match xs, ys with
    | [], [] => true
    | x :: xs', y :: ys' => eqb x y && eqb_list xs' ys'
    | _, _ => false
    end in
  let fix eqb_props (xs ys : JObj) {struct xs} : bool :=
    match xs, ys with
    | [], [] => true
    | (k, x) :: xs', (k', y) :: ys' =>
        String.eqb k k' && eqb x y && eqb_props xs' ys'
    | _, _ => false
    end in
  match a, b with
  | JNull, JNull => true
  | JBool x, JBool y => Bool.eqb x y
  | JNumber x, JNumber y => x =? y
  | JString x, JString y => String.eqb x y
  | JArray xs, JArray ys => eqb_list xs ys
  | JObject xs, JObject ys => eqb_props xs ys
  | _, _ => false
  end.

(** [Object.is] on two values of type [ProjectData | null]. *)
Definition same (a b : option ProjectData) : bool :=
  match a, b with
  | None, None => true
  | Some x, Some y => eqb (JObject x) (JObject y)
  | _, _ => false
  end.

End JS.

(** ** JSON: a reference implementation of the two built-ins

    [JSON.stringify(value, null, space)] and [JSON.parse(text)] on the
    values above.  The parser covers JSON texts whose numbers are integer
    literals and whose [\u] escapes denote ASCII characters, which includes
    everything the serializer writes; a text outside this fragment is
    reported as a syntax error, and no statement below runs the parser on
    one.  The reference implementation is used to run the handlers on
    concrete texts.  The general results are stated for an arbitrary parser
    and serializer. *)

Module JSON.

Definition dquote : ascii := ascii_of_nat 34.
Definition backslash : ascii := ascii_of_nat 92.
Definition newline : ascii := ascii_of_nat 10.

Definition str (c : ascii) : string := String c EmptyString.

Definition hex_digit (n : nat) : ascii :=
  match String.get n "0123456789abcdef" with
  | Some c => c
  | None => "0"%char
  end.

(** One code unit inside QuoteJSONString. *)
Definition quote_char (c : ascii) : string :=
  let n := nat_of_ascii c in
  if Nat.eqb n 34 then String backslash (str dquote)
  else if Nat.eqb n 92 then String backslash (str backslash)
  else if Nat.eqb n 8 then String backslash "b"
  else if Nat.eqb n 12 then String backslash "f"
  else if Nat.eqb n 10 then String backslash "n"
  else if Nat.eqb n 13 then String backslash "r"
  else if Nat.eqb n 9 then String backslash "t"
  else if Nat.ltb n 32 then
    String backslash
      (String "u" (String "0" (String "0"
         (String (hex_digit (Nat.div n 16)) (str (hex_digit (Nat.modulo n 16)))))))
  else str c.

Fixpoint quote_body (s : string) : string :=
  match s with
  | EmptyString => EmptyString
  | String c s' => String.append (quote_char c) (quote_body s')
  end.

Definition quote (s : string) : string :=
  String dquote (String.append (quote_body s) (str dquote)).

Definition number_to_string (n : Z) : string :=
  NilZero.string_of_int (Z.to_int n).

Fixpoint spaces (n : nat) : string :=
  match n with
  | O => EmptyString
  | S n' => String " " (spaces n')
  end.

(** The line feed and indentation put before an item and before the
    closing bracket; nothing when there is no gap. *)
Definition line_break (gap indent : string) : string :=
  match gap with
  | EmptyString => EmptyString
  | String _ _ => String newline indent
  end.

(** Items of an array or object, joined as SerializeJSONArray and
    SerializeJSONObject do: [indent] is the stepback, the items sit at
    [indent ++ gap]. *)
Definition wrap (gap indent : string) (opening closing : string)
    (partial : list string) : string :=
  match partial with
  | [] => String.append opening closing
  | _ :: _ =>
      let inner := String.append indent gap in
      let separator := String "," (line_break gap inner) in
      String.append opening
        (String.append (line_break gap inner)
           (String.append (String.concat separator partial)
              (String.append (line_break gap indent) closing)))
  end.

Fixpoint serialize (gap indent : string) (v : JValue) {struct v} : string :=
  match v with
  | JNull => "null"
  | JBool true => "true"
  | JBool false => "false"
  | JNumber n => number_to_string n
  | JString s => quote s
  | JArray xs =>
      wrap gap indent "[" "]"
        (List.map (serialize gap (String.append indent gap)) xs)
  | JObject props =>
      wrap gap indent "{" "}"
        (List.map
           (fun kv : string * JValue =>
              let '(k, x) := kv in
              String.append (quote k)
                (String.append
                   (match gap with EmptyString => ":" | _ => ": " end)
                   (serialize gap (String.append indent gap) x)))
           props)
  end.

(** [JSON.stringify(v, null, space)]; [space = 0] is the one-argument
    call. *)
Definition stringify (v : JValue) (space : nat) : string :=
  serialize (spaces (Nat.min 10 space)) EmptyString v.

(** *** Parsing *)

Definition is_ws (c : ascii) : bool :=
  let n := nat_of_ascii c in
  Nat.eqb n 32 || Nat.eqb n 9 || Nat.eqb n 10 || Nat.eqb n 13.

Fixpoint skip_ws (s : string) : string :=
  match s with
  | String c s' => if is_ws c then skip_ws s' else s
  | EmptyString => s
  end.

Definition hex_value (c : ascii) : option nat :=
  let n := nat_of_ascii c in
  if Nat.leb 48 n && Nat.leb n 57 then Some (n - 48)%nat
  else if Nat.leb 97 n && Nat.leb n 102 then Some (n - 87)%nat
  else if Nat.leb 65 n && Nat.leb n 70 then Some (n - 55)%nat
  else None.

(** The character a one-letter escape stands for. *)
Definition unescape (c : ascii) : option ascii :=
  let n := nat_of_ascii c in
  if Nat.eqb n 34 then Some dquote
  else if Nat.eqb n 92 then Some backslash
  else if Nat.eqb n 47 then Some "/"%char
  else if Nat.eqb n 98 then Some (ascii_of_nat 8)
  else if Nat.eqb n 102 then Some (ascii_of_nat 12)
  else if Nat.eqb n 110 then Some (ascii_of_nat 10)
  else if Nat.eqb n 114 then Some (ascii_of_nat 13)
  else if Nat.eqb n 116 then Some (ascii_of_nat 9)
  else None.

Definition cons_char (c : ascii) (r : option (string * string))
    : option (string * string) :=
  match r with
  | Some (body, rest) => Some (String c body, rest)
  | None => None
  end.

(** The characters of a string literal after its opening quote, and the
    text after its closing quote. *)
Fixpoint parse_string (s : string) : option (string * string) :=
  match s with
  | EmptyString => None
  | String c s' =>
      if Ascii.eqb c dquote then Some (EmptyString, s')
      else if Ascii.eqb c backslash then
        match s' with
        | String e s'' =>
            match unescape e with
            | Some ch => cons_char ch (parse_string s'')
            | None =>
                match Ascii.eqb e "u", s'' with
                | true, String h1 (String h2 (String h3 (String h4 rest))) =>
                    match hex_value h1, hex_value h2, hex_value h3, hex_value h4 with
                    | Some O, Some O, Some a, Some b =>
                        if Nat.ltb a 8
                        then cons_char (ascii_of_nat (16 * a + b)) (parse_string rest)
                        else None
                    | _, _, _, _ => None
                    end
                | _, _ => None
                end
            end
        | EmptyString => None
        end
      else if Nat.ltb (nat_of_ascii c) 32 then None
      else cons_char c (parse_string s')
  end.

Definition is_digit (c : ascii) : bool :=
  let n := nat_of_ascii c in Nat.leb 48 n && Nat.leb n 57.

(** The longest prefix of digits, and what follows it. *)
Fixpoint span_digits (s : string) : string * string :=
  match s with
  | String c s' =>
      if is_digit c
      then let '(ds, rest) := span_digits s' in (String c ds, rest)
      else (EmptyString, s)
  | EmptyString => (EmptyString, EmptyString)
  end.

Definition starts_fraction_or_exponent (s : string) : bool :=
  match s with
  | String c _ => Ascii.eqb c "." || Ascii.eqb c "e" || Ascii.eqb c "E"
  | EmptyString => false
  end.

Definition has_leading_zero (ds : string) : bool :=
  match ds with
  | String z (String _ _) => Ascii.eqb z "0"
  | _ => false
  end.

(** An unsigned integer literal: [0] or a digit string without a
    leading zero. *)
Definition parse_nat (s : string) : option (Z * string) :=
  let '(ds, rest) := span_digits s in
  if has_leading_zero ds || starts_fraction_or_exponent rest then None
  else match NilZero.uint_of_string ds with
       | Some d => Some (Z.of_uint d, rest)
       | None => None
       end.

Definition parse_number (s : string) : option (JValue * string) :=
  match s with
  | String c s' =>
      if Ascii.eqb c "-"
      then match parse_nat s' with
           | Some (n, rest) => Some (JNumber (- n), rest)
           | None => None
           end
      else match parse_nat s with
           | Some (n, rest) => Some (JNumber n, rest)
           | None => None
           end
  | EmptyString => None
  end.

Fixpoint strip_prefix (p s : string) : option string :=
  match p, s with
  | EmptyString, _ => Some s
  | String a p', String b s' => if Ascii.eqb a b then strip_prefix p' s' else None
  | String _ _, EmptyString => None
  end.

Definition parse_literal (word : string) (v : JValue) (s : string)
    : option (JValue * string) :=
  match strip_prefix word s with
  | Some rest => Some (v, rest)
  | None => None
  end.

(** Recursive descent.  [fuel] bounds the nesting of calls; the length of
    the text is always enough.  In an object a repeated key keeps its
    first place and takes the last value, as [JSON.parse] does. *)
Fixpoint parse_value (fuel : nat) (s : string) {struct fuel}
    : option (JValue * string) :=
  match fuel with
  | O => None
  | S fuel' =>
      match skip_ws s with
      | EmptyString => None
      | String c s' =>
          if Ascii.eqb c "{" then
            match skip_ws s' with
            | String c' s'' =>
                if Ascii.eqb c' "}" then Some (JObject [], s'')
                else parse_members fuel' [] s'
            | EmptyString => None
            end
          else if Ascii.eqb c "[" then
            match skip_ws s' with
            | String c' s'' =>
                if Ascii.eqb c' "]" then Some (JArray [], s'')
                else parse_elements fuel' [] s'
            | EmptyString => None
            end
          else if Ascii.eqb c dquote then
            match parse_string s' with
            | Some (body, rest) => Some (JString body, rest)
            | None => None
            end
          else if Ascii.eqb c "t" then parse_literal "true" (JBool true) (String c s')
          else if Ascii.eqb c "f" then parse_literal "false" (JBool false) (String c s')
          else if Ascii.eqb c "n" then parse_literal "null" JNull (String c s')
          else parse_number (String c s')
      end
  end
with parse_elements (fuel : nat) (acc : list JValue) (s : string) {struct fuel}
    : option (JValue * string) :=
  match fuel with
  | O => None
  | S fuel' =>
      match parse_value fuel' s with
      | Some (v, rest) =>
          match skip_ws rest with
          | String c rest' =>
              if Ascii.eqb c "," then parse_elements fuel' (acc ++ [v]) rest'
              else if Ascii.eqb c "]" then Some (JArray (acc ++ [v]), rest')
              else None
          | EmptyString => None
          end
      | None => None
      end
  end
with parse_members (fuel : nat) (acc : JObj) (s : string) {struct fuel}
    : option (JValue * string) :=
  match fuel with
  | O => None
  | S fuel' =>
      match skip_ws s with
      | String q s' =>
          if Ascii.eqb q dquote then
            match parse_string s' with
            | Some (k, rest) =>
                match skip_ws rest with
                | String c rest' =>
                    if Ascii.eqb c ":" then
                      match parse_value fuel' rest' with
                      | Some (v, rest'') =>
                          match skip_ws rest'' with
                          | String d rest3 =>
                              if Ascii.eqb d ","
                              then parse_members fuel' (JS.set k v acc) rest3
                              else if Ascii.eqb d "}"
                              then Some (JObject (JS.set k v acc), rest3)
                              else None
                          | EmptyString => None
                          end
                      | None => None
                      end
                    else None
                | EmptyString => None
                end
            | None => None
            end
          else None
      | EmptyString => None
      end
  end.

Definition SyntaxError : Exn :=
  mkExn "SyntaxError" "Unexpected token in JSON".

(** [JSON.parse(text)]: the value, or the [SyntaxError] it throws. *)
Definition parse (text : string) : Exn + JValue :=
  match parse_value (S (String.length text)) text with
  | Some (v, rest) =>
      match skip_ws rest with
      | EmptyString => inr v
      | String _ _ => inl SyntaxError
      end
  | None => inl SyntaxError
  end.

(** *** Values on which parsing inverts serialization *)

(** Only white space. *)
Fixpoint blank (s : string) : bool :=
  match s with
  | EmptyString => true
  | String c s' => is_ws c && blank s'
  end.

(** What may follow a value inside a text: nothing, white space, a comma
    or a closing bracket. *)
Definition delimited (rest : string) : bool :=
  match rest with
  | EmptyString => true
  | String c _ => is_ws c || Ascii.eqb c "," || Ascii.eqb c "]" || Ascii.eqb c "}"
  end.

Fixpoint distinct (ks : list string) : bool :=
  match ks with
  | [] => true
  | k :: ks' => negb (existsb (String.eqb k) ks') && distinct ks'
  end.

(** Every object in the value has pairwise distinct keys, as every
    JavaScript object has. *)
Fixpoint well_formed (v : JValue) : bool :=
  match v with
  | JArray xs => forallb well_formed xs
  | JObject props =>
      distinct (List.map fst props)
      && forallb (fun kv : string * JValue => let '(_, x) := kv in well_formed x) props
  | _ => true
  end.

(** A bound on the nesting of parser calls a value needs. *)
Fixpoint size (v : JValue) : nat :=
  match v with
  | JArray xs => S (list_sum (List.map (fun x => S (size x)) xs))
  | JObject props =>
      S (list_sum
           (List.map (fun kv : string * JValue => let '(_, x) := kv in S (size x)) props))
  | _ => 1%nat
  end.

(** Parsing gives back [x] from its serialization at indentation
    [indent], after any white space and before any delimiter, whenever the
    fuel covers the size of [x]. *)
Definition parses_back (gap indent : string) (x : JValue) : Prop :=
  forall (fuel : nat) (pre rest : string),
    (size x <= fuel)%nat ->
    blank pre = true ->
    delimited rest = true ->
    parse_value fuel (String.append pre (String.append (serialize gap indent x) rest))
      = Some (x, rest).

(** Writes a JSON text with ['] in place of the double quote. *)
Fixpoint q (s : string) : string :=
  match s with
  | EmptyString => EmptyString
  | String c s' => String (if Ascii.eqb c "'" then dquote else c) (q s')
  end.

End JSON.

(** ** The string operations of the export file name *)

Module Str.

(** *** The reference [toLowerCase]

    The engine's [toLowerCase] knows the case mappings of all of Unicode
    and is a parameter of the provider.  This reference lowers the ASCII
    letters [A-Z] and leaves every other byte alone; on text made of ASCII
    characters that is what the engine returns. *)

Definition is_upper (c : ascii) : bool :=
  let n := nat_of_ascii c in Nat.leb 65 n && Nat.leb n 90.

Definition is_lower (c : ascii) : bool :=
  let n := nat_of_ascii c in Nat.leb 97 n && Nat.leb n 122.

Definition is_digit (c : ascii) : bool :=
  let n := nat_of_ascii c in Nat.leb 48 n && Nat.leb n 57.

Definition lower_char (c : ascii) : ascii :=
  if is_upper c then ascii_of_nat (nat_of_ascii c + 32) else c.

Fixpoint toLowerCase (s : string) : string :=
  match s with
  | EmptyString => EmptyString
  | String c s' => String (lower_char c) (toLowerCase s')
  end.

(** *** The two replacements of line 143 *)

(** The character class [[a-z0-9]]. *)
Definition in_class (c : ascii) : bool := is_lower c || is_digit c.

(** [s.replace(/[^a-z0-9]+/g, '-')], scanning left to right; [in_run]
    tells that the previous character belongs to the current match. *)
Fixpoint replace_runs (in_run : bool) (s : string) : string :=
  match s with
  | EmptyString => EmptyString
  | String c s' =>
      if in_class c then String c (replace_runs false s')
      else if in_run then replace_runs true s'
      else String "-" (replace_runs true s')
  end.

Definition is_hyphen (c : ascii) : bool := Ascii.eqb c "-".

(** Removes a hyphen that is the last character. *)
Fixpoint drop_final_hyphen (s : string) : string :=
  match s with
  | EmptyString => EmptyString
  | String c EmptyString => if is_hyphen c then EmptyString else s
  | String c s' => String c (drop_final_hyphen s')
  end.

(** [s.replace(/(^-|-$)/g, '')]: the first alternative can only match at
    index 0 and the second only at the last index. *)
Definition strip_edge_hyphens (s : string) : string :=
  match s with
  | String c s' => if is_hyphen c then drop_final_hyphen s' else drop_final_hyphen s
  | EmptyString => EmptyString
  end.

(** No two hyphens in a row. *)
Fixpoint no_double_hyphen (s : string) : bool :=
  match s with
  | String a (String b _ as s') =>
      negb (is_hyphen a && is_hyphen b) && no_double_hyphen s'
  | _ => true
  end.

Definition starts_with_hyphen (s : string) : bool :=
  match s with
  | String c _ => is_hyphen c
  | EmptyString => false
  end.

(** The [sanitizedTitle] of line 143, from the lower-cased title. *)
Definition sanitize (lowered : string) : string :=
  strip_edge_hyphens (replace_runs false lowered).

(** [a || b] on strings. *)
Definition or_else (a b : string) : string :=
  match a with
  | EmptyString => b
  | String _ _ => a
  end.

(** The [fileName] of line 144. *)
Definition fileName (sanitizedTitle : string) : string :=
  String.append "proyek-akademik-"
    (String.append (or_else sanitizedTitle "tanpa-judul") ".json").

End Str.

(** The file-name rule in the words of the specification: lower-case the
    title, replace every run of non-alphanumeric characters with a single
    hyphen, trim leading and trailing hyphens, and fall back to a fixed
    placeholder when nothing is left.  Alphanumeric is read as the ASCII
    letters and digits.  The rule is written on its own alphabet, not on
    the character tests of [Str]; it starts from the lower-cased title. *)

Module SlugSpec.

Definition small_letters : string := "abcdefghijklmnopqrstuvwxyz".
Definition capital_letters : string := "ABCDEFGHIJKLMNOPQRSTUVWXYZ".
Definition digits : string := "0123456789".

Fixpoint occurs (c : ascii) (s : string) : bool :=
  match s with
  | EmptyString => false
  | String a s' => Ascii.eqb c a || occurs c s'
  end.

Definition capital (c : ascii) : bool := occurs c capital_letters.

Definition alphanumeric (c : ascii) : bool :=
  occurs c small_letters || occurs c capital_letters || occurs c digits.

Definition hyphen (c : ascii) : bool := Ascii.eqb c "-".

(** No ASCII capital is left, as in any lower-cased text. *)
Fixpoint no_capital (s : string) : bool :=
  match s with
  | EmptyString => true
  | String c s' => negb (capital c) && no_capital s'
  end.

(** Each run is replaced at its last character. *)
Fixpoint collapse (s : string) : string :=
  match s with
  | EmptyString => EmptyString
  | String c s' =>
      if alphanumeric c then String c (collapse s')
      else match s' with
           | EmptyString => "-"
           | String c' _ =>
               if alphanumeric c' then String "-" (collapse s') else collapse s'
           end
  end.

Fixpoint trim_leading (s : string) : string :=
  match s with
  | String c s' => if hyphen c then trim_leading s' else s
  | EmptyString => EmptyString
  end.

Fixpoint trim_trailing (s : string) : string :=
  match s with
  | EmptyString => EmptyString
  | String c s' =>
      match trim_trailing s' with
      | EmptyString => if hyphen c then EmptyString else String c EmptyString
      | r => String c r
      end
  end.

Definition slug (lowered : string) : string :=
  trim_trailing (trim_leading (collapse lowered)).

Definition file_name (lowered : string) : string :=
  String.append "proyek-akademik-"
    (String.append
       (match slug lowered with
        | EmptyString => "tanpa-judul"
        | sl => sl
        end)
       ".json").

End SlugSpec.

(** ** The world a handler runs in *)

(** Dialogs shown to the user, oldest first. *)
Inductive Dialog : Type :=
| Alert (msg : string)
| Confirm (msg : string) (answer : bool).

(** The only callback the component hands to [setTimeout]. *)
Inductive Callback : Type :=
| ResetCooldown.

Record World : Type := mkWorld {
  (* React state *)
  projectData : option ProjectData;
  isCreatingProject : bool;
  isHumanizingCooldown : bool;
  (* browser *)
  localStorage : gmap string string;
  dialogs : list Dialog;
  console : list (string * Exn);
  downloads : list (string * string);
  requests : list (JObj * option JValue * option JValue);
  now : N;
  timers : list (N * Callback)
}.

Definition with_projectData (v : option ProjectData) (w : World) : World :=
  mkWorld v (isCreatingProject w) (isHumanizingCooldown w) (localStorage w)
    (dialogs w) (console w) (downloads w) (requests w) (now w) (timers w).

Definition with_isCreatingProject (v : bool) (w : World) : World :=
  mkWorld (projectData w) v (isHumanizingCooldown w) (localStorage w)
    (dialogs w) (console w) (downloads w) (requests w) (now w) (timers w).

Definition with_isHumanizingCooldown (v : bool) (w : World) : World :=
  mkWorld (projectData w) (isCreatingProject w) v (localStorage w)
    (dialogs w) (console w) (downloads w) (requests w) (now w) (timers w).

Definition with_localStorage (v : gmap string string) (w : World) : World :=
  mkWorld (projectData w) (isCreatingProject w) (isHumanizingCooldown w) v
    (dialogs w) (console w) (downloads w) (requests w) (now w) (timers w).

Definition with_dialogs (v : list Dialog) (w : World) : World :=
  mkWorld (projectData w) (isCreatingProject w) (isHumanizingCooldown w)
    (localStorage w) v (console w) (downloads w) (requests w) (now w) (timers w).

Definition with_console (v : list (string * Exn)) (w : World) : World :=
  mkWorld (projectData w) (isCreatingProject w) (isHumanizingCooldown w)
    (localStorage w) (dialogs w) v (downloads w) (requests w) (now w) (timers w).

Definition with_downloads (v : list (string * string)) (w : World) : World :=
  mkWorld (projectData w) (isCreatingProject w) (isHumanizingCooldown w)
    (localStorage w) (dialogs w) (console w) v (requests w) (now w) (timers w).

Definition with_requests (v : list (JObj * option JValue * option JValue))
    (w : World) : World :=
  mkWorld (projectData w) (isCreatingProject w) (isHumanizingCooldown w)
    (localStorage w) (dialogs w) (console w) (downloads w) v (now w) (timers w).

Definition with_clock (t : N) (pending : list (N * Callback)) (w : World) : World :=
  mkWorld (projectData w) (isCreatingProject w) (isHumanizingCooldown w)
    (localStorage w) (dialogs w) (console w) (downloads w) (requests w) t pending.

(** A freshly loaded page: nothing rendered yet, [ls] in storage. *)
Definition page (ls : gmap string string) : World :=
  mkWorld None false false ls [] [] [] [] 0%N [].

(** ** Handlers as state-and-exception computations *)

Inductive Completion (A : Type) : Type :=
| Normal (a : A)
| Throw (e : Exn).

Arguments Normal {A} a.
Arguments Throw {A} e.

Definition M (A : Type) : Type := World -> Completion A * World.

#[global] Instance M_ret : MRet M := fun A a w => (Normal a, w).

#[global] Instance M_bind : MBind M := fun A B f m w =>
  match m w with
  | (Normal a, w') => f a w'
  | (Throw e, w') => (Throw e, w')
  end.

Definition throw {A : Type} (e : Exn) : M A := fun w => (Throw e, w).

(** [try { body } catch (error) { handler }] *)
Definition try_catch {A : Type} (body : M A) (handler : Exn -> M A) : M A :=
  fun w =>
    match body w with
    | (Normal a, w') => (Normal a, w')
    | (Throw e, w') => handler e w'
    end.

(** [try { body } finally { cleanup }] *)
Definition try_finally {A : Type} (body : M A) (cleanup : M unit) : M A :=
  fun w =>
    match body w with
    | (r, w') =>
        match cleanup w' with
        | (Normal _, w'') => (r, w'')
        | (Throw e, w'') => (Throw e, w'')
        end
    end.

Definition gets {A : Type} (f : World -> A) : M A := fun w => (Normal (f w), w).

Definition modify (f : World -> World) : M unit := fun w => (Normal tt, f w).

(** The world a computation leaves behind. *)
Definition exec {A : Type} (m : M A) (w : World) : World := snd (m w).

(** *** Browser and React primitives *)

Definition localStorage_getItem (key : string) : M (option string) :=
  gets (fun w => localStorage w !! key).

Definition localStorage_setItem (key value : string) : M unit :=
  modify (fun w => with_localStorage (<[key := value]> (localStorage w)) w).

Definition localStorage_removeItem (key : string) : M unit :=
  modify (fun w => with_localStorage (delete key (localStorage w)) w).

Definition console_error (msg : string) (error : Exn) : M unit :=
  modify (fun w => with_console (console w ++ [(msg, error)]) w).

Definition alert (msg : string) : M unit :=
  modify (fun w => with_dialogs (dialogs w ++ [Alert msg]) w).

(** [window.confirm(msg)]; [answer] is what the user clicks. *)
Definition window_confirm (answer : bool) (msg : string) : M bool :=
  modify (fun w => with_dialogs (dialogs w ++ [Confirm msg answer]) w);;
  mret answer.

Definition setProjectData (v : option ProjectData) : M unit :=
  modify (with_projectData v).

Definition setIsCreatingProject (v : bool) : M unit :=
  modify (with_isCreatingProject v).

Definition setIsHumanizingCooldown (v : bool) : M unit :=
  modify (with_isHumanizingCooldown v).

Definition setTimeout (cb : Callback) (delay : N) : M unit :=
  modify (fun w => with_clock (now w) (timers w ++ [((now w + delay)%N, cb)]) w).

(** [link.click()] on an anchor with [href] the blob and [download] the
    file name. *)
Definition download (fileName content : string) : M unit :=
  modify (fun w => with_downloads (downloads w ++ [(fileName, content)]) w).

(** The call [initializeNewProject(authorInfo, title, academicLevel)]. *)
Definition call_initializeNewProject (authorInfo : JObj)
    (title academicLevel : option JValue) : M unit :=
  modify (fun w => with_requests (requests w ++ [(authorInfo, title, academicLevel)]) w).

(** A call of a built-in that returns a value or throws. *)
Definition call {A : Type} (result : Exn + A) : M A :=
  match result with
  | inl e => throw e
  | inr a => mret a
  end.

(** Resuming after [await p] once [p] has settled: the value it was
    fulfilled with, or its rejection thrown. *)
Definition await {A : Type} (outcome : Exn + A) : M A :=
  match outcome with
  | inl e => throw e
  | inr a => mret a
  end.

(** Reading a property of [null] throws. *)
Definition TypeError_null (k : string) : Exn :=
  mkExn "TypeError"
    (String.append "Cannot read properties of null (reading '" (String.append k "')")).

(** An async function with one [await]: the part that runs at the call and
    the part that runs when the awaited promise settles. *)
Record Async : Type := mkAsync {
  before_await : M unit;
  after_await : Exn + ProjectData -> M unit
}.

(** ** The component *)

Definition STORAGE_KEY : string := "academicProject".

Definition RESET_PROMPT : string :=
  "Apakah Anda yakin ingin memulai proyek baru? Semua progres akan dihapus.".

Definition OVERWRITE_PROMPT : string :=
  "Mengimpor proyek baru akan menimpa pekerjaan Anda saat ini. Lanjutkan?".

Definition IMPORT_FAILED : string :=
  "Gagal mengimpor proyek. Pastikan file JSON valid dan berasal dari aplikasi ini. Error: ".

Definition LOAD_FAILED : string :=
  "Failed to load project from localStorage, using initial data:".

Definition CREATE_FAILED : string := "Gagal membuat proyek baru. Error: ".

Definition INVALID_STRUCTURE : Exn :=
  mkExn "Error" "Struktur file tidak valid atau file rusak.".

Definition COOLDOWN_MS : N := 15000.

Definition PREFACE_PLACEHOLDER : JValue := JString "<p>Kata Pengantar belum dibuat.</p>".

Definition ABSTRACT_PLACEHOLDER : JValue := JString "<p>Abstrak belum dibuat.</p>".

(** [if (!o.k) o.k = d;] *)
Definition default_if_falsy (k : string) (d : JValue) (o : JObj) : JObj :=
  if JS.truthy_prop (JS.get k o) then o else JS.set k d o.

(** The six compatibility lines, the same in [getInitialData] (lines 14-19)
    and in [importProject] (lines 106-111). *)
Definition compatibilityChecks (o : JObj) : JObj :=
  let o := default_if_falsy "bibliography" (JArray []) o in
  let o := default_if_falsy "appendices" (JArray []) o in
  let o := default_if_falsy "statementPageData" JNull o in
  let o := default_if_falsy "approvalData" JNull o in
  let o := default_if_falsy "preface" PREFACE_PLACEHOLDER o in
  let o := default_if_falsy "abstract" ABSTRACT_PLACEHOLDER o in
  o.

(** The fields the compatibility lines fill in, with their defaults. *)
Definition optional_fields : list (string * JValue) :=
  [ ("bibliography", JArray []);
    ("appendices", JArray []);
    ("statementPageData", JNull);
    ("approvalData", JNull);
    ("preface", PREFACE_PLACEHOLDER);
    ("abstract", ABSTRACT_PLACEHOLDER) ].

(** [o.title && o.authorInfo] *)
Definition loadable (o : JObj) : bool :=
  JS.truthy_prop (JS.get "title" o) && JS.truthy_prop (JS.get "authorInfo" o).

(** [o.title && o.outline && o.chapters && o.authorInfo] *)
Definition importable (o : JObj) : bool :=
  JS.truthy_prop (JS.get "title" o) && JS.truthy_prop (JS.get "outline" o)
  && JS.truthy_prop (JS.get "chapters" o) && JS.truthy_prop (JS.get "authorInfo" o).



(** ** Predicates and sample data used in the statements *)

(** An optional field is settled when the compatibility lines have nothing
    to do for it: it is present, and truthy or already its default. *)
Definition settled_field (o : JObj) (kd : string * JValue) : bool :=
  match JS.get (fst kd) o with
  | Some v => JS.truthy v || JS.eqb v (snd kd)
  | None => false
  end.

Definition settled (o : JObj) : bool := forallb (settled_field o) optional_fields.

(** The React state and the storage are the same in both worlds. *)
Definition same_store (w w' : World) : Prop :=
  projectData w' = projectData w /\
  isCreatingProject w' = isCreatingProject w /\
  isHumanizingCooldown w' = isHumanizingCooldown w /\
  localStorage w' = localStorage w.

(** No timer of [w] is due before [t]. *)
Definition quiet_until (t : N) (w : World) : Prop :=
  Forall (fun p => (t <= fst p)%N) (timers w).

Definition sample_project : ProjectData :=
  [ ("title", JString "Analisis Data!!");
    ("authorInfo", JObject [("name", JString "Sari")]);
    ("outline", JArray [JString "Pendahuluan"]);
    ("chapters", JArray []);
    ("bibliography", JArray []);
    ("appendices", JArray []);
    ("statementPageData", JNull);
    ("approvalData", JNull);
    ("preface", JString "<p>Puji syukur.</p>");
    ("abstract", JString "<p>Ringkasan.</p>") ].

(** A complete project whose preface is the empty string. *)
Definition blank_preface_project : ProjectData :=
  JS.set "preface" (JString EmptyString) sample_project.

(** A project saved before the optional fields existed. *)
Definition legacy_project : ProjectData :=
  [ ("title", JString "Skripsi");
    ("authorInfo", JObject [("name", JString "Budi")]);
    ("outline", JArray [JString "Bab 1"]);
    ("chapters", JArray []) ].

Definition builtin_project : ProjectData :=
  [ ("title", JString "Proyek Contoh");
    ("authorInfo", JObject []);
    ("outline", JArray []);
    ("chapters", JArray []);
    ("bibliography", JArray []);
    ("appendices", JArray []);
    ("statementPageData", JNull);
    ("approvalData", JNull);
    ("preface", PREFACE_PLACEHOLDER);
    ("abstract", ABSTRACT_PLACEHOLDER) ].


(** The confirmation dialog [importProject] opens over an active project. *)
Definition overwrite_dialog (w : World) (answer : bool) : list Dialog :=
  match projectData w with
  | Some _ => [Confirm OVERWRITE_PROMPT answer]
  | None => []
  end.

(** A rendered page holding [d], with [d] in storage. *)
Definition editing (d : ProjectData) : World :=
  mkWorld (Some d) false false
    {[ STORAGE_KEY := JSON.stringify (JObject d) 0 ]} [] [] [] [] 0%N [].

Definition network_error : Exn := mkExn "Error" "Quota exceeded".


(** *** Predicates used for the remaining handlers *)

(** Every character of [s] satisfies [p]. *)
Fixpoint all_chars (p : ascii -> bool) (s : string) : bool :=
  match s with
  | EmptyString => true
  | String c s' => p c && all_chars p s'
  end.

(** A character of a sanitized title: [[a-z0-9]] or a hyphen. *)
Definition slug_char (c : ascii) : bool := Str.in_class c || Str.is_hyphen c.

Fixpoint ends_with_hyphen (s : string) : bool :=
  match s with
  | EmptyString => false
  | String c EmptyString => Str.is_hyphen c
  | String _ s' => ends_with_hyphen s'
  end.

(** Lower-case letters, digits and single hyphens, with no hyphen at either
    end. *)
Definition safe_slug (s : string) : bool :=
  all_chars slug_char s && Str.no_double_hyphen s
  && negb (Str.starts_with_hyphen s) && negb (ends_with_hyphen s).

(** The names of the optional fields that [o] does not hold as truthy
    values and does not hold at all, in the order of the compatibility
    lines. *)
Definition missing_fields (o : JObj) : list string :=
  List.filter (fun k => match JS.get k o with Some _ => false | None => true end)
    (List.map fst optional_fields).

Section ProjectProvider.

(** The built-ins [JSON.parse], [JSON.stringify] (the second argument is
    the indentation, 0 for none) and [String.prototype.toLowerCase], and
    the constant imported from [../src/data/initialProject]. *)
Variable JSON_parse : string -> Exn + JValue.
Variable JSON_stringify : JValue -> nat -> string.
Variable String_toLowerCase : string -> string.
Variable initialProjectData : ProjectData.

(** Lines 7-28. *)
Definition getInitialData : M (option ProjectData) :=
  try_catch
    (savedProject ← localStorage_getItem STORAGE_KEY;
     match savedProject with
     | Some (String c text) =>
         parsedProject ← call (JSON_parse (String c text));
         match parsedProject with
         | JNull => throw (TypeError_null "title")
         | JObject o =>
             if loadable o
             then mret (Some (compatibilityChecks o))
             else mret (Some initialProjectData)
         | JBool _ | JNumber _ | JString _ | JArray _ =>
             (* [.title] of a primitive or of an array is undefined *)
             mret (Some initialProjectData)
         end
     | Some EmptyString | None => mret (Some initialProjectData)
     end)
    (fun error =>
       console_error LOAD_FAILED error;;
       mret (Some initialProjectData)).

(** The effect of lines 55-61. *)
Definition persistEffect : M unit :=
  current ← gets projectData;
  match current with
  | Some d => localStorage_setItem STORAGE_KEY (JSON_stringify (JObject d) 0)
  | None => localStorage_removeItem STORAGE_KEY
  end.

(** Lines 63-65. *)
Definition onProjectUpdate (newProjectData : ProjectData) : M unit :=
  setProjectData (Some newProjectData).

(** Lines 67-69. *)
Definition loadProject (data : ProjectData) : M unit :=
  setProjectData (Some data).

(** Lines 71-76. *)
Definition startNewProject (answer : bool) : M unit :=
  ok ← window_confirm answer RESET_PROMPT;
  if (ok : bool) then
    localStorage_removeItem STORAGE_KEY;;
    setProjectData None
  else mret tt.

(** Lines 78-90. *)
Definition createProject (formData : JObj) : Async :=
  {| before_await :=
       setIsCreatingProject true;;
       call_initializeNewProject (JS.omit ["title"; "academicLevel"] formData)
         (JS.get "title" formData) (JS.get "academicLevel" formData);
     after_await := fun outcome =>
       try_finally
         (try_catch
            (newProject ← await outcome;
             setProjectData (Some newProject))
            (fun error =>
               console_error "Failed to initialize new project:" error;;
               alert (String.append CREATE_FAILED (message error))))
         (setIsCreatingProject false) |}.

(** Lines 92-98. *)
Definition startHumanizingCooldown : M unit :=
  setIsHumanizingCooldown true;;
  setTimeout ResetCooldown COOLDOWN_MS.

(** The [catch] block of lines 118-121. *)
Definition report_import_failure (error : Exn) : M unit :=
  console_error "Failed to import project:" error;;
  alert (String.append IMPORT_FAILED (message error)).

(** Lines 101-122. *)
Definition performImport (fileContent : string) : M unit :=
  try_catch
    (importedData ← call (JSON_parse fileContent);
     match importedData with
     | JNull => throw (TypeError_null "title")
     | JObject o =>
         if importable o then
           setProjectData (Some (compatibilityChecks o));;
           alert "Proyek berhasil diimpor!"
         else throw INVALID_STRUCTURE
     | JBool _ | JNumber _ | JString _ | JArray _ =>
         (* every property read is undefined, so the test fails *)
         throw INVALID_STRUCTURE
     end)
    report_import_failure.

(** Lines 100-131. *)
Definition importProject (answer : bool) (fileContent : string) : M unit :=
  current ← gets projectData;
  match current with
  | Some _ =>
      ok ← window_confirm answer OVERWRITE_PROMPT;
      if (ok : bool) then performImport fileContent else mret tt
  | None => performImport fileContent
  end.

(** [projectData.title.toLowerCase()] *)
Definition title_toLowerCase (o : JObj) : M string :=
  match JS.get "title" o with
  | Some (JString t) => mret (String_toLowerCase t)
  | Some JNull =>
      throw (mkExn "TypeError" "Cannot read properties of null (reading 'toLowerCase')")
  | None =>
      throw (mkExn "TypeError" "Cannot read properties of undefined (reading 'toLowerCase')")
  | Some _ =>
      throw (mkExn "TypeError" "projectData.title.toLowerCase is not a function")
  end.

(** Lines 133-155. *)
Definition exportProject : M unit :=
  current ← gets projectData;
  match current with
  | None => alert "Tidak ada proyek aktif untuk diekspor."
  | Some d =>
      try_catch
        (let jsonString := JSON_stringify (JObject d) 2 in
         lowered ← title_toLowerCase d;
         let sanitizedTitle :=
           Str.strip_edge_hyphens (Str.replace_runs false lowered) in
         let fileName :=
           String.append "proyek-akademik-"
             (String.append (Str.or_else sanitizedTitle "tanpa-judul") ".json") in
         download fileName jsonString)
        (fun error =>
           console_error "Failed to export project:" error;;
           alert "Gagal mengekspor proyek.")
  end.

(** *** Rendering *)

(** After a handler has run React renders again and runs the effect when
    its dependency [projectData] has changed. *)
Definition dispatch (handler : M unit) (w : World) : World :=
  let w' := exec handler w in
  if JS.same (projectData w) (projectData w') then w' else exec persistEffect w'.

(** First render: the state is initialised from [getInitialData] and the
    effect runs.  [None] if the initialiser throws. *)
Definition mount (ls : gmap string string) : option World :=
  match getInitialData (page ls) with
  | (Normal initial, w) => Some (exec persistEffect (with_projectData initial w))
  | (Throw _, _) => None
  end.

(** *** Timers *)

Definition run_callback (cb : Callback) : M unit :=
  match cb with
  | ResetCooldown => setIsHumanizingCooldown false
  end.

(** The callbacks among [pending] that are due at [t], in order. *)
Fixpoint fire (t : N) (pending : list (N * Callback)) : M unit :=
  match pending with
  | [] => mret tt
  | (due, cb) :: rest =>
      (if (due <=? t)%N then run_callback cb else mret tt);;
      fire t rest
  end.

(** [ms] milliseconds pass with no other event. *)
Definition elapse (ms : N) : M unit :=
  t ← gets (fun w => (now w + ms)%N);
  pending ← gets timers;
  modify (fun w => with_clock t (List.filter (fun p => negb (fst p <=? t)%N) pending) w);;
  fire t pending.

(** *** The store as a transition system *)

Inductive Event : Type :=
| OnProjectUpdate (newProjectData : ProjectData)
| LoadProject (data : ProjectData)
| StartNewProject (answer : bool)
| CreateProject (formData : JObj)
| CreateProjectSettled (formData : JObj) (outcome : Exn + ProjectData)
| StartHumanizingCooldown
| ImportProject (answer : bool) (fileContent : string)
| ExportProject
| Elapse (ms : N).

Definition handler (ev : Event) : M unit :=
  match ev with
  | OnProjectUpdate d => onProjectUpdate d
  | LoadProject d => loadProject d
  | StartNewProject answer => startNewProject answer
  | CreateProject formData => before_await (createProject formData)
  | CreateProjectSettled formData outcome => after_await (createProject formData) outcome
  | StartHumanizingCooldown => startHumanizingCooldown
  | ImportProject answer fileContent => importProject answer fileContent
  | ExportProject => exportProject
  | Elapse ms => elapse ms
  end.

Definition step (w : World) (ev : Event) : World := dispatch (handler ev) w.

Definition run (w : World) (evs : list Event) : World := fold_left step evs w.

(** The storage slot agrees with the state. *)
Definition persisted (w : World) : Prop :=
  localStorage w !! STORAGE_KEY =
    match projectData w with
    | Some d => Some (JSON_stringify (JObject d) 0)
    | None => None
    end.


(** Reloading the page: a new first render over the storage [w] leaves. *)
Definition reload (w : World) : option World := mount (localStorage w).

(** The events that can end with [setProjectData(null)]. *)
Definition is_confirmed_reset (ev : Event) : bool :=
  match ev with
  | StartNewProject answer => answer
  | _ => false
  end.

Definition is_create_event (ev : Event) : bool :=
  match ev with
  | CreateProject _ | CreateProjectSettled _ _ => true
  | _ => false
  end.

Definition is_cooldown_event (ev : Event) : bool :=
  match ev with
  | StartHumanizingCooldown | Elapse _ => true
  | _ => false
  end.


(** ** Results *)

(** Unfolds the monad's operations. *)
Ltac unfold_m :=
  unfold exec, report_import_failure, console_error, alert, window_confirm,
    localStorage_getItem, localStorage_setItem, localStorage_removeItem,
    setProjectData, setIsCreatingProject, setIsHumanizingCooldown, setTimeout,
    download, call_initializeNewProject,
    gets, modify, throw, try_catch, try_finally, call, await,
    mbind, M_bind, mret, M_ret in *.

(** *** Structural equality *)

Lemma JValue_nested_ind (P : JValue -> Prop)
    (Hnull : P JNull)
    (Hbool : forall b, P (JBool b))
    (Hnum : forall n, P (JNumber n))
    (Hstr : forall s, P (JString s))
    (Harr : forall xs, Forall P xs -> P (JArray xs))
    (Hobj : forall props, Forall (fun kv => P (snd kv)) props -> P (JObject props)) :
  forall v, P v.
Proof.
  fix IH 1. intros [ | b | n | s | xs | props ].
  - exact Hnull.
  - apply Hbool.
  - apply Hnum.
  - apply Hstr.
  - apply Harr. induction xs as [ | x xs IHxs ]; constructor; [ apply IH | exact IHxs ].
  - apply Hobj. induction props as [ | [k x] props IHp ]; constructor;
      [ apply IH | exact IHp ].
Qed.

Lemma JS_eqb_eq : forall a b, JS.eqb a b = true -> a = b.
Proof.
  induction a as [ | x | x | x | xs IHxs | props IHp ] using JValue_nested_ind;
    intros [ | y | y | y | ys | qs ] H; simpl in H; try discriminate; try reflexivity.
  - apply Bool.eqb_prop in H. congruence.
  - apply Z.eqb_eq in H. congruence.
  - apply String.eqb_eq in H. congruence.
  - f_equal. revert ys H. induction IHxs as [ | x xs Hx _ IH ]; intros [ | y ys ] H;
      try discriminate; try reflexivity.
    apply andb_true_iff in H as [H1 H2]. f_equal; [ apply Hx, H1 | apply IH, H2 ].
  - f_equal. revert qs H. induction IHp as [ | [k x] props Hx _ IH ]; intros [ | [k' y] qs ] H;
      try discriminate; try reflexivity.
    apply andb_true_iff in H as [H12 H3]. apply andb_true_iff in H12 as [H1 H2].
    apply String.eqb_eq in H1. simpl in Hx. f_equal; [ f_equal; [ exact H1 | apply Hx, H2 ] | apply IH, H3 ].
Qed.

Lemma JS_eqb_refl : forall a, JS.eqb a a = true.
Proof.
  induction a as [ | x | x | x | xs IHxs | props IHp ] using JValue_nested_ind; simpl.
  - reflexivity.
  - apply Bool.eqb_reflx.
  - apply Z.eqb_refl.
  - apply String.eqb_refl.
  - induction IHxs as [ | x xs Hx _ IH ]; [ reflexivity | ].
    rewrite Hx. exact IH.
  - induction IHp as [ | [k x] props Hx _ IH ]; [ reflexivity | ].
    simpl in Hx. rewrite String.eqb_refl, Hx. exact IH.
Qed.

Lemma JS_same_eq : forall a b, JS.same a b = true -> a = b.
Proof.
  intros [x| ] [y| ] H; try discriminate H; try reflexivity.
  change (JS.eqb (JObject x) (JObject y) = true) in H.
  apply JS_eqb_eq in H. congruence.
Qed.

Lemma JS_same_refl : forall a, JS.same a a = true.
Proof. intros [x| ]; [ apply (JS_eqb_refl (JObject x)) | reflexivity ]. Qed.

(** *** Reset *)

(** C7.  [startNewProject] opens a confirmation dialog.  When the user
    confirms, the state becomes absent and the storage no longer holds the
    key; when the user declines, the state and the storage are as before. *)
Theorem startNewProject_confirm_decline : forall w : World,
  (let w' := step w (StartNewProject true) in
   projectData w' = None /\
   localStorage w' !! STORAGE_KEY = None /\
   dialogs w' = (dialogs w ++ [Confirm RESET_PROMPT true])%list) /\
  (let w' := step w (StartNewProject false) in
   same_store w w' /\
   dialogs w' = (dialogs w ++ [Confirm RESET_PROMPT false])%list).
Proof.
  intros w. split.
  - unfold step, dispatch. cbn.
    destruct (projectData w) as [d| ]; cbn; repeat split; apply lookup_delete_eq.
  - unfold step, dispatch. cbn. rewrite JS_same_refl. cbn.
    repeat split.
Qed.

(** *** Timers only touch the cooldown flag *)

Lemma fire_spec : forall (t : N) (pending : list (N * Callback)) (w : World),
  fire t pending w =
    (Normal tt,
     if existsb (fun p => (fst p <=? t)%N) pending
     then with_isHumanizingCooldown false w else w).
Proof.
  intros t pending. induction pending as [ | [due cb] rest IH ]; intros w.
  - reflexivity.
  - cbn [fire existsb fst]. unfold mbind, M_bind.
    destruct (due <=? t)%N; cbn.
    + destruct cb. cbn. rewrite IH. destruct (existsb _ rest); reflexivity.
    + unfold mret, M_ret. rewrite IH. reflexivity.
Qed.

Lemma elapse_spec : forall (ms : N) (w : World),
  exec (elapse ms) w =
    let t := (now w + ms)%N in
    let w' := with_clock t (List.filter (fun p => negb (fst p <=? t)%N) (timers w)) w in
    if existsb (fun p => (fst p <=? t)%N) (timers w)
    then with_isHumanizingCooldown false w' else w'.
Proof.
  intros ms w. unfold exec, elapse, gets, modify, mbind, M_bind. cbn.
  rewrite fire_spec. reflexivity.
Qed.

(** *** The storage follows the state *)

Lemma persistEffect_persisted : forall w : World, persisted (exec persistEffect w).
Proof.
  intros w. unfold persisted, persistEffect. unfold_m. cbn.
  destruct (projectData w) as [d| ] eqn:Hpd; cbn; rewrite Hpd.
  - apply lookup_insert_eq.
  - apply lookup_delete_eq.
Qed.

(** A handler leaves the storage alone, unless it is a confirmed reset. *)
Lemma handler_storage : forall (ev : Event) (w : World),
  localStorage (exec (handler ev) w) = localStorage w \/
  (projectData (exec (handler ev) w) = None /\
   localStorage (exec (handler ev) w) !! STORAGE_KEY = None).
Proof.
  intros ev w. destruct ev as [d|d|answer|fd|fd outcome| |answer text| |ms].
  - left. reflexivity.
  - left. reflexivity.
  - destruct answer; [ right | left ]; cbn; [ | reflexivity ].
    split; [ reflexivity | apply lookup_delete_eq ].
  - left. reflexivity.
  - left. destruct outcome as [e|d]; reflexivity.
  - left. reflexivity.
  - left. unfold exec. cbn. unfold importProject, performImport, gets, try_catch, mbind, M_bind.
    destruct (projectData w) as [cur| ]; [ destruct answer | ]; cbn; try reflexivity;
      (destruct (JSON_parse text) as [e|[ |b|n|str|xs|o]]; cbn; try reflexivity;
       destruct (importable o); reflexivity).
  - left. unfold exec. cbn. unfold exportProject, gets, try_catch, mbind, M_bind, title_toLowerCase.
    destruct (projectData w) as [cur| ]; cbn; [ | reflexivity ].
    destruct (JS.get "title" cur) as [[ |b|n|str|xs|o]| ]; reflexivity.
  - left. cbn [handler]. rewrite elapse_spec. cbn.
    destruct (existsb _ (timers w)); reflexivity.
Qed.

Lemma step_persisted : forall (w : World) (ev : Event),
  persisted w -> persisted (step w ev).
Proof.
  intros w ev Hw. unfold step, dispatch.
  destruct (JS.same (projectData w) (projectData (exec (handler ev) w))) eqn:Hsame.
  - apply JS_same_eq in Hsame. unfold persisted in *.
    destruct (handler_storage ev w) as [Hls | [Hpd Hls]].
    + rewrite Hls, <- Hsame. exact Hw.
    + rewrite Hls, Hpd. reflexivity.
  - apply persistEffect_persisted.
Qed.

Lemma run_persisted : forall (evs : list Event) (w : World),
  persisted w -> persisted (run w evs).
Proof.
  induction evs as [ | ev evs IH ]; intros w Hw; [ exact Hw | ].
  cbn. apply IH, step_persisted, Hw.
Qed.

(** *** Loading *)

Lemma getInitialData_spec : forall w : World,
  getInitialData w =
    match localStorage w !! STORAGE_KEY with
    | Some (String c text) =>
        match JSON_parse (String c text) with
        | inl e =>
            (Normal (Some initialProjectData),
             with_console (console w ++ [(LOAD_FAILED, e)]) w)
        | inr JNull =>
            (Normal (Some initialProjectData),
             with_console (console w ++ [(LOAD_FAILED, TypeError_null "title")]) w)
        | inr (JObject o) =>
            (Normal (Some (if loadable o then compatibilityChecks o
                           else initialProjectData)), w)
        | inr _ => (Normal (Some initialProjectData), w)
        end
    | Some EmptyString | None => (Normal (Some initialProjectData), w)
    end.
Proof.
  intros w. unfold getInitialData, localStorage_getItem. unfold_m. cbn.
  destruct (localStorage w !! STORAGE_KEY) as [[ |c text]| ]; try reflexivity.
  destruct (JSON_parse (String c text)) as [e|[ |b|n|str|xs|o]]; try reflexivity.
  destruct (loadable o); reflexivity.
Qed.

Lemma getInitialData_total : forall w : World,
  exists d w', getInitialData w = (Normal (Some d), w').
Proof.
  intros w. rewrite getInitialData_spec.
  destruct (localStorage w !! STORAGE_KEY) as [[ |c text]| ]; eauto.
  destruct (JSON_parse (String c text)) as [e|[ |b|n|str|xs|o]]; eauto.
Qed.

(** C2.  [getInitialData] always returns a project, never [null] and never
    by throwing.  It returns the built-in project when the slot is empty
    and when the stored text does not parse; in the latter case the parse
    error is caught and logged to the console. *)
Theorem getInitialData_falls_back : forall w : World,
  (exists d w', getInitialData w = (Normal (Some d), w')) /\
  (localStorage w !! STORAGE_KEY = None ->
   getInitialData w = (Normal (Some initialProjectData), w)) /\
  (forall text e,
     localStorage w !! STORAGE_KEY = Some text ->
     JSON_parse text = inl e ->
     fst (getInitialData w) = Normal (Some initialProjectData) /\
     same_store w (snd (getInitialData w)) /\
     (text <> EmptyString ->
      console (snd (getInitialData w)) = (console w ++ [(LOAD_FAILED, e)])%list)).
Proof.
  intros w. split; [ apply getInitialData_total | ].
  rewrite getInitialData_spec. split.
  - intros ->. reflexivity.
  - intros text e Hslot Hparse. rewrite Hslot.
    destruct text as [ |c text]; [ repeat split; congruence | ].
    rewrite Hparse. repeat split.
Qed.

(** C10.  A stored text that parses is used only when the parsed value has a
    truthy [title] and a truthy [authorInfo]; then the compatibility lines
    are applied to it.  If either is missing or falsy the stored value is
    dropped and the built-in project is returned. *)
Theorem getInitialData_needs_title_and_authorInfo :
  forall (w : World) (text : string) (v : JValue),
    localStorage w !! STORAGE_KEY = Some text ->
    JSON_parse text = inr v ->
    (JS.truthy_prop (JS.field v "title") = false \/
     JS.truthy_prop (JS.field v "authorInfo") = false ->
     fst (getInitialData w) = Normal (Some initialProjectData)) /\
    (text <> EmptyString ->
     JS.truthy_prop (JS.field v "title") = true ->
     JS.truthy_prop (JS.field v "authorInfo") = true ->
     exists o, v = JObject o /\
       getInitialData w = (Normal (Some (compatibilityChecks o)), w)).
Proof.
  intros w text v Hslot Hparse. rewrite getInitialData_spec, Hslot. split.
  - intros Hfalsy. destruct text as [ |c text]; [ reflexivity | ]. rewrite Hparse.
    destruct v as [ |b|n|str|xs|o]; try reflexivity. cbn in Hfalsy.
    unfold loadable. destruct Hfalsy as [-> | ->]; [ | rewrite andb_false_r ]; reflexivity.
  - intros Hne Ht Ha. destruct text as [ |c text]; [ congruence | ]. rewrite Hparse.
    destruct v as [ |b|n|str|xs|o]; try discriminate Ht. exists o. split; [ reflexivity | ].
    cbn in Ht, Ha. unfold loadable. rewrite Ht, Ha. reflexivity.
Qed.

Lemma mount_persisted : forall ls : gmap string string,
  exists w0, mount ls = Some w0 /\ persisted w0.
Proof.
  intros ls. unfold mount.
  destruct (getInitialData_total (page ls)) as (d & w' & ->).
  eexists. split; [ reflexivity | apply persistEffect_persisted ].
Qed.

(** C1.  From the first render on, after every handler and every timer the
    storage slot agrees with the state: it holds the serialization of the
    active project when there is one and is absent when there is none. *)
Theorem storage_follows_state : forall (ls : gmap string string) (evs : list Event),
  exists w0, mount ls = Some w0 /\ persisted (run w0 evs).
Proof.
  intros ls evs. destruct (mount_persisted ls) as (w0 & Hm & Hp).
  exists w0. split; [ exact Hm | apply run_persisted, Hp ].
Qed.

(** *** Import *)

Lemma performImport_spec : forall (text : string) (w : World),
  performImport text w =
    match JSON_parse text with
    | inl e => report_import_failure e w
    | inr JNull => report_import_failure (TypeError_null "title") w
    | inr (JObject o) =>
        if importable o
        then (Normal tt,
              with_dialogs (dialogs w ++ [Alert "Proyek berhasil diimpor!"])
                (with_projectData (Some (compatibilityChecks o)) w))
        else report_import_failure INVALID_STRUCTURE w
    | inr _ => report_import_failure INVALID_STRUCTURE w
    end.
Proof.
  intros text w. unfold performImport. unfold_m.
  destruct (JSON_parse text) as [e|[ |b|n|str|xs|o]]; try reflexivity.
  destruct (importable o); reflexivity.
Qed.

Lemma importProject_spec : forall (answer : bool) (text : string) (w : World),
  importProject answer text w =
    match projectData w with
    | Some _ =>
        let w1 := with_dialogs (dialogs w ++ [Confirm OVERWRITE_PROMPT answer]) w in
        if answer then performImport text w1 else (Normal tt, w1)
    | None => performImport text w
    end.
Proof.
  intros answer text w. unfold importProject, window_confirm. unfold_m. cbn.
  destruct (projectData w); [ destruct answer | ]; reflexivity.
Qed.


Lemma dispatch_unchanged : forall (h : M unit) (w : World),
  projectData (exec h w) = projectData w -> dispatch h w = exec h w.
Proof.
  intros h w Hpd. unfold dispatch. rewrite Hpd, JS_same_refl. reflexivity.
Qed.

(** Rendering changes nothing but the storage. *)
Lemma dispatch_state : forall (h : M unit) (w : World),
  let w1 := exec h w in
  let w' := dispatch h w in
  projectData w' = projectData w1 /\
  isCreatingProject w' = isCreatingProject w1 /\
  isHumanizingCooldown w' = isHumanizingCooldown w1 /\
  dialogs w' = dialogs w1 /\
  console w' = console w1 /\
  downloads w' = downloads w1 /\
  now w' = now w1 /\
  timers w' = timers w1.
Proof.
  intros h w. cbn zeta. unfold dispatch.
  destruct (JS.same _ _); [ repeat split | ].
  unfold persistEffect. unfold_m. cbn.
  destruct (projectData (h w).2) eqn:Hpd; cbn; repeat split; exact Hpd.
Qed.


(** What a rejected import leaves behind. *)
Lemma import_rejected : forall (w : World) (answer : bool) (text : string) (e : Exn),
  projectData w = None \/ answer = true ->
  (forall w1, performImport text w1 = report_import_failure e w1) ->
  let w' := step w (ImportProject answer text) in
  same_store w w' /\
  dialogs w' =
    (dialogs w ++ overwrite_dialog w answer
       ++ [Alert (String.append IMPORT_FAILED (message e))])%list.
Proof.
  intros w answer text e Hgo Hfail. cbn zeta. unfold step. cbn [handler].
  assert (Hexec : exec (importProject answer text) w =
            exec (report_import_failure e)
              (with_dialogs (dialogs w ++ overwrite_dialog w answer) w)).
  { unfold exec at 1. rewrite importProject_spec. unfold overwrite_dialog.
    destruct (projectData w) as [d| ] eqn:Hpd.
    - destruct Hgo as [Hgo | ->]; [ discriminate | ]. cbn zeta. rewrite Hfail. reflexivity.
    - rewrite Hfail. unfold exec. cbn. rewrite app_nil_r.
      destruct w; reflexivity. }
  rewrite dispatch_unchanged; rewrite Hexec; [ | reflexivity ].
  unfold_m. cbn. split; [ repeat split | ]. rewrite <- app_assoc. reflexivity.
Qed.


(** *** Creation *)

Lemma createProject_settled_spec :
  forall (formData : JObj) (outcome : Exn + ProjectData) (w : World),
    after_await (createProject formData) outcome w =
      (Normal tt,
       with_isCreatingProject false
         match outcome with
         | inr newProject => with_projectData (Some newProject) w
         | inl error =>
             with_dialogs (dialogs w ++ [Alert (String.append CREATE_FAILED (message error))])
               (with_console (console w ++ [("Failed to initialize new project:", error)]) w)
         end).
Proof.
  intros formData [error|newProject] w; reflexivity.
Qed.

(** C9.  The call sets [isCreatingProject]; when the awaited promise
    settles, whether it resolves or rejects, the handler returns normally
    with the flag cleared.  On rejection the active project and the storage
    are as they were when the promise settled, and an alert containing the
    error's message is shown. *)
Theorem createProject_flag_and_failure : forall (formData : JObj) (w : World),
  isCreatingProject (step w (CreateProject formData)) = true /\
  (forall outcome,
     fst (after_await (createProject formData) outcome w) = Normal tt /\
     isCreatingProject (step w (CreateProjectSettled formData outcome)) = false) /\
  (forall newProject,
     projectData (step w (CreateProjectSettled formData (inr newProject)))
       = Some newProject) /\
  (forall error,
     let w' := step w (CreateProjectSettled formData (inl error)) in
     projectData w' = projectData w /\
     localStorage w' = localStorage w /\
     dialogs w' =
       (dialogs w ++ [Alert (String.append CREATE_FAILED (message error))])%list).
Proof.
  intros formData w. unfold step. cbn [handler]. split; [ | split; [ | split ] ].
  - destruct (dispatch_state (before_await (createProject formData)) w) as (_ & -> & _).
    reflexivity.
  - intros outcome. split.
    + rewrite createProject_settled_spec. reflexivity.
    + destruct (dispatch_state (after_await (createProject formData) outcome) w)
        as (_ & -> & _).
      unfold exec. rewrite createProject_settled_spec. reflexivity.
  - intros newProject.
    destruct (dispatch_state (after_await (createProject formData) (inr newProject)) w)
      as (-> & _).
    unfold exec. rewrite createProject_settled_spec. reflexivity.
  - intros error. cbn zeta.
    rewrite dispatch_unchanged; unfold exec; rewrite createProject_settled_spec;
      [ repeat split | reflexivity ].
Qed.

(** *** Cooldown *)

Lemma step_startHumanizingCooldown : forall w : World,
  step w StartHumanizingCooldown =
    with_clock (now w) (timers w ++ [((now w + COOLDOWN_MS)%N, ResetCooldown)])
      (with_isHumanizingCooldown true w).
Proof.
  intros w. unfold step. cbn [handler]. rewrite dispatch_unchanged; reflexivity.
Qed.

Lemma step_elapse : forall (ms : N) (w : World),
  step w (Elapse ms) =
    let t := (now w + ms)%N in
    let w' := with_clock t (List.filter (fun p => negb (fst p <=? t)%N) (timers w)) w in
    if existsb (fun p => (fst p <=? t)%N) (timers w)
    then with_isHumanizingCooldown false w' else w'.
Proof.
  intros ms w. unfold step. cbn [handler].
  rewrite dispatch_unchanged; rewrite elapse_spec; cbn zeta;
    destruct (existsb _ (timers w)); reflexivity.
Qed.

(** The flag [ms] milliseconds after a call, with no event in between: it
    is still set exactly when the call's own delay has not elapsed and no
    timer that was already pending has come due. *)
Lemma cooldown_after_call : forall (w : World) (ms : N),
  isHumanizingCooldown (step (step w StartHumanizingCooldown) (Elapse ms)) =
    (ms <? COOLDOWN_MS)%N
    && negb (existsb (fun p => (fst p <=? now w + ms)%N) (timers w)).
Proof.
  intros w ms. rewrite step_elapse, step_startHumanizingCooldown. cbn zeta. cbn [now timers with_clock with_isHumanizingCooldown].
  rewrite existsb_app. cbn [existsb fst]. rewrite orb_false_r.
  replace (now w + COOLDOWN_MS <=? now w + ms)%N with (negb (ms <? COOLDOWN_MS)%N).
  2: { rewrite N.ltb_antisym, negb_involutive.
       destruct (N.leb_spec COOLDOWN_MS ms), (N.leb_spec (now w + COOLDOWN_MS) (now w + ms));
         try reflexivity; lia. }
  destruct (existsb _ (timers w)), (ms <? COOLDOWN_MS)%N; reflexivity.
Qed.

Lemma quiet_no_fire : forall (t t' : N) (pending : list (N * Callback)),
  Forall (fun p => (t' <= fst p)%N) pending ->
  (t < t')%N ->
  existsb (fun p => (fst p <=? t)%N) pending = false /\
  List.filter (fun p => negb (fst p <=? t)%N) pending = pending.
Proof.
  intros t t' pending Hq Ht. induction Hq as [ | p pending Hp _ [IHe IHf] ].
  - split; reflexivity.
  - cbn [existsb List.filter].
    assert (Hdue : (fst p <=? t)%N = false) by (apply N.leb_gt; lia).
    rewrite Hdue, IHe, IHf. split; reflexivity.
Qed.

(** C6, as amended.  [startHumanizingCooldown] sets the flag at once and
    schedules a timer that clears it 15 seconds after the call.  With no
    timer due before then, the flag is set throughout the 15 seconds and
    cleared exactly when they have elapsed.  A second call while the flag is
    set does not restart the window: the first call's timer still clears the
    flag 15 seconds after the first call. *)
Theorem startHumanizingCooldown_timing : forall w : World,
  isHumanizingCooldown (step w StartHumanizingCooldown) = true /\
  (quiet_until (now w + COOLDOWN_MS) w ->
   forall ms : N,
     isHumanizingCooldown (step (step w StartHumanizingCooldown) (Elapse ms))
       = (ms <? COOLDOWN_MS)%N) /\
  (quiet_until (now w + COOLDOWN_MS) w ->
   forall t1 ms : N, (t1 < COOLDOWN_MS)%N ->
     let w2 := run w [StartHumanizingCooldown; Elapse t1; StartHumanizingCooldown] in
     isHumanizingCooldown w2 = true /\
     isHumanizingCooldown (step w2 (Elapse ms)) = (t1 + ms <? COOLDOWN_MS)%N).
Proof.
  intros w. split; [ | split ].
  - rewrite step_startHumanizingCooldown. reflexivity.
  - intros Hquiet ms. rewrite cooldown_after_call.
    destruct (N.ltb_spec ms COOLDOWN_MS) as [Hms | Hms]; [ | reflexivity ].
    destruct (quiet_no_fire (now w + ms) _ _ Hquiet ltac:(lia)) as [-> _].
    reflexivity.
  - intros Hquiet t1 ms Ht1. cbn zeta. unfold run. cbn [fold_left]. split.
    + rewrite step_startHumanizingCooldown. reflexivity.
    + rewrite cooldown_after_call. rewrite step_elapse, step_startHumanizingCooldown.
      cbn zeta. cbn [now timers with_clock with_isHumanizingCooldown].
      destruct (quiet_no_fire (now w + t1) _ _ Hquiet ltac:(lia)) as [He Hf].
      assert (Hdue : (now w + COOLDOWN_MS <=? now w + t1)%N = false)
        by (apply N.leb_gt; lia).
      rewrite List.existsb_app, List.filter_app, He, Hf. cbn [existsb List.filter fst orb].
      rewrite Hdue. cbn [negb orb]. cbn [now timers with_clock].
      rewrite List.existsb_app. cbn [existsb fst]. rewrite orb_false_r.
      destruct (N.ltb_spec (t1 + ms) COOLDOWN_MS) as [Hlt | Hge].
      * destruct (quiet_no_fire (now w + t1 + ms) _ _ Hquiet ltac:(lia)) as [-> _].
        assert (Hlate : (now w + COOLDOWN_MS <=? now w + t1 + ms)%N = false)
          by (apply N.leb_gt; lia).
        rewrite Hlate.
        assert (Hms : (ms <? COOLDOWN_MS)%N = true) by (apply N.ltb_lt; lia).
        rewrite Hms. reflexivity.
      * assert (Hlate : (now w + COOLDOWN_MS <=? now w + t1 + ms)%N = true)
          by (apply N.leb_le; lia).
        rewrite Hlate, orb_true_r. apply andb_false_r.
Qed.

(** *** Export file name *)

(** Apart from the capitals, the class of the regular expression is the
    alphanumeric characters. *)
Lemma class_alphanumeric : forall c : ascii,
  SlugSpec.capital c = false -> Str.in_class c = SlugSpec.alphanumeric c.
Proof.
  intros c. destruct c as [[] [] [] [] [] [] [] []]; vm_compute; congruence.
Qed.

Lemma hyphen_is_hyphen : forall c : ascii, SlugSpec.hyphen c = Str.is_hyphen c.
Proof. reflexivity. Qed.

Lemma class_not_hyphen : forall c : ascii,
  Str.in_class c = true -> Str.is_hyphen c = false.
Proof.
  intros c. destruct c as [[] [] [] [] [] [] [] []]; vm_compute; congruence.
Qed.

(** On a text without capitals the two ways of replacing runs agree. *)
Lemma collapse_replace_runs : forall s : string,
  SlugSpec.no_capital s = true ->
  Str.replace_runs false s = SlugSpec.collapse s /\
  match s with
  | EmptyString => Str.replace_runs true s = SlugSpec.collapse s
  | String c _ =>
      if Str.in_class c
      then Str.replace_runs true s = SlugSpec.collapse s
      else SlugSpec.collapse s = String "-" (Str.replace_runs true s)
  end.
Proof.
  induction s as [ | c s IH ]; intros Hs; [ split; reflexivity | ].
  cbn [SlugSpec.no_capital] in Hs. apply andb_true_iff in Hs as [Hc Hs].
  apply negb_true_iff in Hc. destruct (IH Hs) as [IH1 IH2]. clear IH.
  cbn [Str.replace_runs SlugSpec.collapse].
  rewrite <- (class_alphanumeric c Hc).
  destruct (Str.in_class c) eqn:Hclass.
  - rewrite IH1. split; reflexivity.
  - assert (Hgoal : String "-" (Str.replace_runs true s) =
             match s with
             | EmptyString => "-"
             | String c' _ =>
                 if SlugSpec.alphanumeric c'
                 then String "-" (SlugSpec.collapse s)
                 else SlugSpec.collapse s
             end).
    { destruct s as [ | c' s ]; [ reflexivity | ].
      cbn [SlugSpec.no_capital] in Hs. apply andb_true_iff in Hs as [Hc' _].
      apply negb_true_iff in Hc'. rewrite <- (class_alphanumeric c' Hc').
      destruct (Str.in_class c'); rewrite IH2; reflexivity. }
    split; [ exact Hgoal | symmetry; exact Hgoal ].
Qed.

Lemma replace_runs_true_start : forall s : string,
  Str.starts_with_hyphen (Str.replace_runs true s) = false.
Proof.
  induction s as [ | c s IH ]; [ reflexivity | ]. cbn [Str.replace_runs].
  destruct (Str.in_class c) eqn:Hc; [ | exact IH ].
  cbn. apply class_not_hyphen, Hc.
Qed.

Lemma no_double_hyphen_cons : forall (c : ascii) (s : string),
  Str.is_hyphen c && Str.starts_with_hyphen s = false ->
  Str.no_double_hyphen s = true ->
  Str.no_double_hyphen (String c s) = true.
Proof.
  intros c [ | b s ] Hc Hs; [ reflexivity | ].
  change (negb (Str.is_hyphen c && Str.is_hyphen b)
          && Str.no_double_hyphen (String b s) = true).
  cbn in Hc. rewrite Hc, Hs. reflexivity.
Qed.

Lemma replace_runs_no_double_hyphen : forall (s : string) (in_run : bool),
  Str.no_double_hyphen (Str.replace_runs in_run s) = true.
Proof.
  induction s as [ | c s IH ]; intros in_run; [ reflexivity | ].
  cbn [Str.replace_runs]. destruct (Str.in_class c) eqn:Hc.
  - apply no_double_hyphen_cons; [ | apply IH ].
    rewrite (class_not_hyphen c Hc). reflexivity.
  - destruct in_run; [ apply IH | ].
    apply no_double_hyphen_cons; [ | apply IH ].
    rewrite replace_runs_true_start. apply andb_false_r.
Qed.

Lemma trim_trailing_drop_final : forall s : string,
  Str.no_double_hyphen s = true ->
  SlugSpec.trim_trailing s = Str.drop_final_hyphen s.
Proof.
  induction s as [ | c s IH ]; intros Hs; [ reflexivity | ].
  destruct s as [ | b s ]; [ reflexivity | ].
  change (negb (Str.is_hyphen c && Str.is_hyphen b)
          && Str.no_double_hyphen (String b s) = true) in Hs.
  apply andb_true_iff in Hs as [Hcb Hs].
  specialize (IH Hs).
  change (SlugSpec.trim_trailing (String c (String b s)))
    with (match SlugSpec.trim_trailing (String b s) with
          | EmptyString => if SlugSpec.hyphen c then EmptyString else String c EmptyString
          | r => String c r
          end).
  rewrite hyphen_is_hyphen.
  change (Str.drop_final_hyphen (String c (String b s)))
    with (String c (Str.drop_final_hyphen (String b s))).
  rewrite IH.
  destruct (Str.drop_final_hyphen (String b s)) eqn:Hd; [ | reflexivity ].
  destruct s as [ | b' s ]; [ | discriminate Hd ].
  cbn in Hd. destruct (Str.is_hyphen b); [ | discriminate Hd ].
  rewrite andb_true_r in Hcb. apply negb_true_iff in Hcb. rewrite Hcb. reflexivity.
Qed.

Lemma trim_strip_edge_hyphens : forall s : string,
  Str.no_double_hyphen s = true ->
  SlugSpec.trim_trailing (SlugSpec.trim_leading s) = Str.strip_edge_hyphens s.
Proof.
  intros [ | c s ] Hs; [ reflexivity | ].
  cbn [SlugSpec.trim_leading Str.strip_edge_hyphens]. rewrite hyphen_is_hyphen.
  destruct (Str.is_hyphen c) eqn:Hc.
  - destruct s as [ | b s ]; [ reflexivity | ].
    change (negb (Str.is_hyphen c && Str.is_hyphen b)
            && Str.no_double_hyphen (String b s) = true) in Hs.
    apply andb_true_iff in Hs as [Hcb Hs].
    rewrite Hc in Hcb. cbn in Hcb. apply negb_true_iff in Hcb.
    cbn [SlugSpec.trim_leading]. rewrite hyphen_is_hyphen, Hcb.
    apply trim_trailing_drop_final, Hs.
  - apply trim_trailing_drop_final, Hs.
Qed.

(** On a lower-cased title without capitals the source's [sanitizedTitle]
    is the specification's slug, and its [fileName] the specification's
    file name. *)
Lemma sanitize_slug : forall lowered : string,
  SlugSpec.no_capital lowered = true ->
  Str.sanitize lowered = SlugSpec.slug lowered.
Proof.
  intros lowered Hlow. unfold Str.sanitize, SlugSpec.slug.
  rewrite <- (proj1 (collapse_replace_runs lowered Hlow)).
  symmetry. apply trim_strip_edge_hyphens, replace_runs_no_double_hyphen.
Qed.

Lemma fileName_file_name : forall lowered : string,
  SlugSpec.no_capital lowered = true ->
  Str.fileName (Str.sanitize lowered) = SlugSpec.file_name lowered.
Proof.
  intros lowered Hlow. unfold Str.fileName, SlugSpec.file_name.
  rewrite (sanitize_slug lowered Hlow).
  destruct (SlugSpec.slug lowered); reflexivity.
Qed.

(** The reference [toLowerCase] leaves no capital. *)
Lemma lower_char_no_capital : forall c : ascii,
  SlugSpec.capital (Str.lower_char c) = false.
Proof.
  intros c. destruct c as [[] [] [] [] [] [] [] []]; reflexivity.
Qed.

Lemma toLowerCase_no_capital : forall s : string,
  SlugSpec.no_capital (Str.toLowerCase s) = true.
Proof.
  induction s as [ | c s IH ]; [ reflexivity | ].
  cbn [Str.toLowerCase SlugSpec.no_capital].
  rewrite lower_char_no_capital, IH. reflexivity.
Qed.

Lemma exportProject_spec : forall (w : World) (d : ProjectData) (title : string),
  projectData w = Some d ->
  JS.get "title" d = Some (JString title) ->
  exportProject w =
    (Normal tt,
     with_downloads
       (downloads w ++
        [(Str.fileName (Str.sanitize (String_toLowerCase title)),
          JSON_stringify (JObject d) 2)]) w).
Proof.
  intros w d title Hpd Htitle. unfold exportProject, title_toLowerCase. unfold_m.
  rewrite Hpd, Htitle. reflexivity.
Qed.

(** C8.  Exporting an active project whose title is a string offers one
    file for download, named from the title by line 143 and line 144,
    whatever the engine's [toLowerCase] returns.  A lower-cased title holds
    no ASCII capital, and then that name is [proyek-akademik-<slug>.json],
    where the slug is the lower-cased title with every run of
    non-alphanumeric characters replaced by one hyphen and leading and
    trailing hyphens trimmed, or [tanpa-judul] when that is empty.  The
    title [Analisis Data!!], lower-cased to [analisis data!!], gives the
    slug [analisis-data], and the title [???] gives the fallback. *)
Theorem exportProject_file_name :
  (forall (w : World) (d : ProjectData) (title : string),
     projectData w = Some d ->
     JS.get "title" d = Some (JString title) ->
     let lowered := String_toLowerCase title in
     exportProject w =
       (Normal tt,
        with_downloads
          (downloads w ++
           [(Str.fileName (Str.sanitize lowered), JSON_stringify (JObject d) 2)]) w) /\
     (SlugSpec.no_capital lowered = true ->
      Str.fileName (Str.sanitize lowered) = SlugSpec.file_name lowered /\
      Str.sanitize lowered = SlugSpec.slug lowered)) /\
  (String_toLowerCase "Analisis Data!!" = "analisis data!!" ->
   SlugSpec.slug (String_toLowerCase "Analisis Data!!") = "analisis-data" /\
   Str.fileName (Str.sanitize (String_toLowerCase "Analisis Data!!"))
     = "proyek-akademik-analisis-data.json") /\
  (String_toLowerCase "???" = "???" ->
   SlugSpec.slug (String_toLowerCase "???") = EmptyString /\
   Str.fileName (Str.sanitize (String_toLowerCase "???"))
     = "proyek-akademik-tanpa-judul.json").
Proof.
  split; [ | split ].
  - intros w d title Hpd Htitle lowered. split.
    + exact (exportProject_spec w d title Hpd Htitle).
    + intros Hlow. split.
      * exact (fileName_file_name lowered Hlow).
      * exact (sanitize_slug lowered Hlow).
  - intros ->. split; reflexivity.
  - intros ->. split; reflexivity.
Qed.

(** *** Compatibility lines *)

Lemma get_set : forall (k' k : string) (v : JValue) (o : JObj),
  JS.get k' (JS.set k v o) = if String.eqb k' k then Some v else JS.get k' o.
Proof.
  intros k' k v o. induction o as [ | [k0 v0] o IH ]; cbn.
  - rewrite (String.eqb_sym k' k). destruct (String.eqb k k'); reflexivity.
  - destruct (String.eqb k k0) eqn:Hk; cbn.
    + apply String.eqb_eq in Hk. subst k0.
      destruct (String.eqb k' k); reflexivity.
    + rewrite IH. destruct (String.eqb k' k0) eqn:Hk0; [ | reflexivity ].
      apply String.eqb_eq in Hk0. subst k0.
      rewrite (String.eqb_sym k' k), Hk. reflexivity.
Qed.

Lemma set_same : forall (k : string) (v : JValue) (o : JObj),
  JS.get k o = Some v -> JS.set k v o = o.
Proof.
  intros k v o. induction o as [ | [k0 v0] o IH ]; cbn; [ discriminate | ].
  destruct (String.eqb k k0); intros H.
  - congruence.
  - rewrite (IH H). reflexivity.
Qed.

Lemma get_default_if_falsy : forall (k' k : string) (d : JValue) (o : JObj),
  JS.get k' (default_if_falsy k d o) =
    if String.eqb k' k
    then (if JS.truthy_prop (JS.get k o) then JS.get k o else Some d)
    else JS.get k' o.
Proof.
  intros k' k d o. unfold default_if_falsy.
  destruct (JS.truthy_prop (JS.get k o)) eqn:Ht.
  - destruct (String.eqb k' k) eqn:Hk; [ | reflexivity ].
    apply String.eqb_eq in Hk. subst k'. reflexivity.
  - apply get_set.
Qed.

Lemma default_if_falsy_settled : forall (k : string) (d : JValue) (o : JObj),
  settled_field o (k, d) = true <-> default_if_falsy k d o = o.
Proof.
  intros k d o. unfold settled_field, default_if_falsy. cbn [fst snd].
  destruct (JS.get k o) as [v| ] eqn:Hget; cbn [JS.truthy_prop].
  - destruct (JS.truthy v); cbn [orb]; [ split; reflexivity | ].
    split.
    + intros Heq. apply JS_eqb_eq in Heq. subst v. apply set_same, Hget.
    + intros Hset. assert (Hd : JS.get k (JS.set k d o) = Some d)
        by (rewrite get_set, String.eqb_refl; reflexivity).
      rewrite Hset, Hget in Hd. injection Hd as ->. apply JS_eqb_refl.
  - split; [ discriminate | ].
    intros Hset. assert (Hd : JS.get k (JS.set k d o) = Some d)
      by (rewrite get_set, String.eqb_refl; reflexivity).
    rewrite Hset, Hget in Hd. discriminate.
Qed.

(** Every optional field after the compatibility lines: kept when truthy,
    its default otherwise. *)
Lemma get_compatibilityChecks : forall (o : JObj) (k : string) (d : JValue),
  In (k, d) optional_fields ->
  JS.get k (compatibilityChecks o) =
    if JS.truthy_prop (JS.get k o) then JS.get k o else Some d.
Proof.
  intros o k d Hin. unfold compatibilityChecks. cbn zeta.
  cbn in Hin.
  destruct Hin as [H|[H|[H|[H|[H|[H|[]]]]]]]; injection H as <- <-;
    repeat (rewrite get_default_if_falsy; cbn [String.eqb Ascii.eqb Bool.eqb]);
    reflexivity.
Qed.

Lemma get_compatibilityChecks_other : forall (o : JObj) (k : string),
  ~ In k (List.map fst optional_fields) ->
  JS.get k (compatibilityChecks o) = JS.get k o.
Proof.
  intros o k Hout. unfold compatibilityChecks. cbn zeta.
  repeat rewrite get_default_if_falsy.
  repeat match goal with
  | |- context [String.eqb k ?k'] =>
      destruct (String.eqb_spec k k') as [-> | _];
        [ exfalso; apply Hout; cbn; tauto | ]
  end.
  reflexivity.
Qed.

Lemma compatibilityChecks_settles : forall o : JObj,
  settled (compatibilityChecks o) = true.
Proof.
  intros o. unfold settled. apply forallb_forall. intros [k d] Hin.
  unfold settled_field. cbn [fst snd]. rewrite (get_compatibilityChecks o k d Hin).
  destruct (JS.truthy_prop (JS.get k o)) eqn:Ht.
  - destruct (JS.get k o) as [v| ]; [ | discriminate Ht ]. cbn in Ht. rewrite Ht. reflexivity.
  - rewrite JS_eqb_refl. apply orb_true_r.
Qed.

Lemma compatibilityChecks_fixed : forall o : JObj,
  settled o = true <-> compatibilityChecks o = o.
Proof.
  intros o. split.
  - intros Hs. unfold settled in Hs. cbn [forallb optional_fields] in Hs.
    repeat (apply andb_true_iff in Hs as [?H Hs]).
    unfold compatibilityChecks. cbn zeta.
    repeat match goal with
    | H : settled_field o _ = true |- _ =>
        apply default_if_falsy_settled in H; rewrite H; clear H
    end.
    reflexivity.
  - intros Hfix. rewrite <- Hfix. apply compatibilityChecks_settles.
Qed.


(** *** Export, then import *)

Lemma step_exportProject : forall (w : World) (d : ProjectData) (title : string),
  projectData w = Some d ->
  JS.get "title" d = Some (JString title) ->
  step w ExportProject =
    with_downloads
      (downloads w ++
       [(Str.fileName (Str.sanitize (String_toLowerCase title)),
         JSON_stringify (JObject d) 2)]) w.
Proof.
  intros w d title Hpd Htitle. unfold step. cbn [handler].
  rewrite dispatch_unchanged; unfold exec;
    rewrite (exportProject_spec w d title Hpd Htitle); reflexivity.
Qed.

(** The state after importing, with the prompt confirmed, a text that
    parses to the object [o], over an active project [d]. *)
Lemma import_over_active : forall (w : World) (d o : ProjectData) (text : string),
  projectData w = Some d ->
  JSON_parse text = inr (JObject o) ->
  projectData (step w (ImportProject true text)) =
    Some (if importable o then compatibilityChecks o else d).
Proof.
  intros w d o text Hpd Hparse. unfold step. cbn [handler].
  destruct (dispatch_state (importProject true text) w) as (-> & _).
  unfold exec. rewrite importProject_spec, Hpd. cbn zeta.
  rewrite performImport_spec, Hparse.
  destruct (importable o); [ reflexivity | ]. cbn. exact Hpd.
Qed.

(** An import that goes ahead on a text parsing to an importable object
    [o], into any store: the store holds [o] after the compatibility lines
    and the user is told that the import succeeded. *)
Lemma import_accepted :
  forall (w : World) (answer : bool) (text : string) (o : JObj),
    projectData w = None \/ answer = true ->
    JSON_parse text = inr (JObject o) ->
    importable o = true ->
    let w' := step w (ImportProject answer text) in
    projectData w' = Some (compatibilityChecks o) /\
    dialogs w' =
      (dialogs w ++ overwrite_dialog w answer ++ [Alert "Proyek berhasil diimpor!"])%list /\
    console w' = console w.
Proof.
  intros w answer text o Hgo Hparse Hok. cbn zeta.
  assert (Hexec : exec (importProject answer text) w =
            with_dialogs
              (dialogs w ++ overwrite_dialog w answer ++ [Alert "Proyek berhasil diimpor!"])
              (with_projectData (Some (compatibilityChecks o)) w)).
  { unfold exec. rewrite importProject_spec. unfold overwrite_dialog.
    destruct (projectData w) as [d| ] eqn:Hpd.
    - destruct Hgo as [Hgo | ->]; [ discriminate | ]. cbn zeta.
      rewrite performImport_spec, Hparse, Hok. cbn. rewrite <- List.app_assoc.
      reflexivity.
    - rewrite performImport_spec, Hparse, Hok. reflexivity. }
  unfold step. cbn [handler].
  destruct (dispatch_state (importProject answer text) w)
    as (-> & _ & _ & -> & -> & _).
  rewrite Hexec. repeat split.
Qed.

Lemma export_import_settled :
  forall (w : World) (d : ProjectData) (title : string),
    projectData w = Some d ->
    JS.get "title" d = Some (JString title) ->
    settled d = true ->
    JSON_parse (JSON_stringify (JObject d) 2) = inr (JObject d) ->
    let text := JSON_stringify (JObject d) 2 in
    let w1 := step w ExportProject in
    downloads w1 =
      (downloads w ++
       [(Str.fileName (Str.sanitize (String_toLowerCase title)), text)])%list /\
    projectData (step w1 (ImportProject true text)) = Some d.
Proof.
  intros w d title Hpd Htitle Hs Hparse text w1. subst w1 text.
  rewrite (step_exportProject w d title Hpd Htitle). split; [ reflexivity | ].
  erewrite import_over_active; [ | exact Hpd | exact Hparse ].
  apply compatibilityChecks_fixed in Hs. rewrite Hs.
  destruct (importable d); reflexivity.
Qed.

(** C4, as amended.  Take an active project whose title is a string,
    whose [title], [outline], [chapters] and [authorInfo] are truthy, and
    whose six optional fields are each present and truthy or already the
    default, and suppose [JSON.parse] reads back what [JSON.stringify]
    wrote for it.  Exporting it offers its serialization, and importing
    that text with the overwrite prompt confirmed succeeds: the user is
    told so, nothing is logged, and the store holds that same project.
    The text does not lean on the store it came from: imported into any
    store, it leaves that project there. *)
Theorem export_import_round_trip :
  forall (w : World) (d : ProjectData) (title : string),
    projectData w = Some d ->
    JS.get "title" d = Some (JString title) ->
    importable d = true ->
    settled d = true ->
    JSON_parse (JSON_stringify (JObject d) 2) = inr (JObject d) ->
    let text := JSON_stringify (JObject d) 2 in
    let w1 := step w ExportProject in
    let w2 := step w1 (ImportProject true text) in
    downloads w1 =
      (downloads w ++
       [(Str.fileName (Str.sanitize (String_toLowerCase title)), text)])%list /\
    projectData w2 = Some d /\
    dialogs w2 =
      (dialogs w ++ [Confirm OVERWRITE_PROMPT true; Alert "Proyek berhasil diimpor!"])%list /\
    console w2 = console w /\
    (forall (w0 : World) (answer : bool),
       projectData w0 = None \/ answer = true ->
       let w3 := step w0 (ImportProject answer text) in
       projectData w3 = Some d /\
       dialogs w3 =
         (dialogs w0 ++ overwrite_dialog w0 answer
            ++ [Alert "Proyek berhasil diimpor!"])%list).
Proof.
  intros w d title Hpd Htitle Hok Hs Hparse. cbn zeta.
  apply compatibilityChecks_fixed in Hs.
  assert (Himport : forall (w0 : World) (answer : bool),
            projectData w0 = None \/ answer = true ->
            projectData (step w0 (ImportProject answer (JSON_stringify (JObject d) 2)))
              = Some d /\
            dialogs (step w0 (ImportProject answer (JSON_stringify (JObject d) 2))) =
              (dialogs w0 ++ overwrite_dialog w0 answer
                 ++ [Alert "Proyek berhasil diimpor!"])%list /\
            console (step w0 (ImportProject answer (JSON_stringify (JObject d) 2)))
              = console w0).
  { intros w0 answer Hgo.
    destruct (import_accepted w0 answer _ d Hgo Hparse Hok) as (H1 & H2 & H3).
    rewrite Hs in H1. repeat split; assumption. }
  rewrite (step_exportProject w d title Hpd Htitle).
  split; [ reflexivity | ].
  destruct (Himport
              (with_downloads
                 (downloads w ++
                  [(Str.fileName (Str.sanitize (String_toLowerCase title)),
                    JSON_stringify (JObject d) 2)]) w)
              true (or_intror eq_refl)) as (H1 & H2 & H3).
  split; [ exact H1 | ].
  split; [ rewrite H2; unfold overwrite_dialog; cbn; rewrite Hpd; reflexivity | ].
  split; [ exact H3 | ].
  intros w0 answer Hgo. destruct (Himport w0 answer Hgo) as (H1' & H2' & _).
  split; assumption.
Qed.

(** The condition on the optional fields cannot be dropped: an importable
    project with an unsettled field comes back changed. *)
Lemma export_import_changes_unsettled :
  forall (w : World) (d : ProjectData) (title : string),
    projectData w = Some d ->
    JS.get "title" d = Some (JString title) ->
    importable d = true ->
    settled d = false ->
    JSON_parse (JSON_stringify (JObject d) 2) = inr (JObject d) ->
    projectData
      (step (step w ExportProject) (ImportProject true (JSON_stringify (JObject d) 2)))
      <> Some d.
Proof.
  intros w d title Hpd Htitle Hok Hs Hparse.
  rewrite (step_exportProject w d title Hpd Htitle).
  erewrite import_over_active; [ | exact Hpd | exact Hparse ].
  rewrite Hok. intros Heq. injection Heq as Heq. apply compatibilityChecks_fixed in Heq. congruence.
Qed.

(** Nor can the condition on the four required fields: the exported text
    of a project that lacks one of them, or has an empty title, is
    rejected by the import.  Over the project itself the store is as
    before, and an empty store stays empty. *)
Lemma export_import_rejects_unimportable :
  forall (w : World) (d : ProjectData) (title : string),
    projectData w = Some d ->
    JS.get "title" d = Some (JString title) ->
    importable d = false ->
    JSON_parse (JSON_stringify (JObject d) 2) = inr (JObject d) ->
    let text := JSON_stringify (JObject d) 2 in
    let w1 := step w ExportProject in
    let w2 := step w1 (ImportProject true text) in
    same_store w1 w2 /\
    dialogs w2 =
      (dialogs w ++
       [Confirm OVERWRITE_PROMPT true;
        Alert (String.append IMPORT_FAILED (message INVALID_STRUCTURE))])%list /\
    (forall (w0 : World) (answer : bool),
       projectData w0 = None ->
       projectData (step w0 (ImportProject answer text)) = None).
Proof.
  intros w d title Hpd Htitle Hok Hparse. cbn zeta.
  assert (Hfail : forall w1,
            performImport (JSON_stringify (JObject d) 2) w1
              = report_import_failure INVALID_STRUCTURE w1).
  { intros w1. rewrite performImport_spec, Hparse, Hok. reflexivity. }
  rewrite (step_exportProject w d title Hpd Htitle).
  split; [ | split ].
  - apply (import_rejected _ true _ INVALID_STRUCTURE (or_intror eq_refl) Hfail).
  - rewrite (proj2 (import_rejected _ true _ INVALID_STRUCTURE (or_intror eq_refl) Hfail)).
    unfold overwrite_dialog. cbn. rewrite Hpd. reflexivity.
  - intros w0 answer Hnone.
    destruct (import_rejected w0 answer _ INVALID_STRUCTURE (or_introl Hnone) Hfail)
      as ((Hsame & _) & _).
    rewrite Hsame. exact Hnone.
Qed.

(** ** Further properties of the handlers *)

(** *** Errors stay inside the handlers *)

(** X1.  No handler and no timer callback ever throws to its caller: a
    parse error, a failed structure check, a type error at the title and an
    error the generation service rejects with are all caught inside.  As
    everywhere in this model, what is thrown is an error object and the
    browser's storage, dialogs and timers do not fail. *)
Theorem handlers_never_throw : forall (ev : Event) (w : World),
  fst (handler ev w) = Normal tt.
Proof.
  intros ev w. destruct ev as [d|d|answer|fd|fd outcome| |answer text| |ms];
    cbn [handler].
  - reflexivity.
  - reflexivity.
  - destruct answer; reflexivity.
  - reflexivity.
  - rewrite createProject_settled_spec. reflexivity.
  - reflexivity.
  - rewrite importProject_spec.
    assert (Hperform : forall w1, fst (performImport text w1) = Normal tt).
    { intros w1. rewrite performImport_spec.
      destruct (JSON_parse text) as [e|[ |b|n|str|xs|o]]; try reflexivity.
      destruct (importable o); reflexivity. }
    destruct (projectData w); [ destruct answer | ]; cbn zeta;
      try apply Hperform; reflexivity.
  - unfold exportProject, title_toLowerCase. unfold_m.
    destruct (projectData w) as [d| ]; [ | reflexivity ].
    destruct (JS.get "title" d) as [[ |b|n|str|xs|o]| ]; reflexivity.
  - unfold elapse. unfold_m. cbn. rewrite fire_spec. reflexivity.
Qed.

(** *** Export *)

Lemma exportProject_cases : forall w : World,
  exec exportProject w =
    match projectData w with
    | None =>
        with_dialogs (dialogs w ++ [Alert "Tidak ada proyek aktif untuk diekspor."]) w
    | Some d =>
        match JS.get "title" d with
        | Some (JString title) =>
            with_downloads
              (downloads w ++
               [(Str.fileName (Str.sanitize (String_toLowerCase title)),
                 JSON_stringify (JObject d) 2)]) w
        | Some JNull =>
            with_dialogs (dialogs w ++ [Alert "Gagal mengekspor proyek."])
              (with_console
                 (console w ++
                  [("Failed to export project:",
                    mkExn "TypeError"
                      "Cannot read properties of null (reading 'toLowerCase')")]) w)
        | None =>
            with_dialogs (dialogs w ++ [Alert "Gagal mengekspor proyek."])
              (with_console
                 (console w ++
                  [("Failed to export project:",
                    mkExn "TypeError"
                      "Cannot read properties of undefined (reading 'toLowerCase')")]) w)
        | Some _ =>
            with_dialogs (dialogs w ++ [Alert "Gagal mengekspor proyek."])
              (with_console
                 (console w ++
                  [("Failed to export project:",
                    mkExn "TypeError"
                      "projectData.title.toLowerCase is not a function")]) w)
        end
    end.
Proof.
  intros w. destruct (projectData w) as [d| ] eqn:Hpd.
  - destruct (JS.get "title" d) as [v| ] eqn:Htitle.
    + destruct v as [ |b|n|title|xs|o];
        unfold exportProject, title_toLowerCase; unfold_m; rewrite Hpd, Htitle;
        reflexivity.
    + unfold exportProject, title_toLowerCase. unfold_m. rewrite Hpd, Htitle. reflexivity.
  - unfold exportProject. unfold_m. rewrite Hpd. reflexivity.
Qed.

Lemma step_exportProject_exec : forall w : World,
  step w ExportProject = exec exportProject w.
Proof.
  intros w. unfold step. cbn [handler]. apply dispatch_unchanged.
  rewrite exportProject_cases.
  destruct (projectData w) as [d| ] eqn:Hpd; [ | exact Hpd ].
  destruct (JS.get "title" d) as [[ |b|n|str|xs|o]| ]; exact Hpd.
Qed.

(** X2.  Export never changes the state, the storage or the timers, and it
    offers a file exactly when a project is active and its title is a
    string; it then offers exactly one. *)
Theorem exportProject_read_only : forall w : World,
  let w' := step w ExportProject in
  same_store w w' /\
  timers w' = timers w /\
  (downloads w' <> downloads w <->
   exists d title, projectData w = Some d /\ JS.get "title" d = Some (JString title)) /\
  (downloads w' = downloads w \/
   exists file, downloads w' = (downloads w ++ [file])%list).
Proof.
  intros w. cbn zeta. rewrite step_exportProject_exec, exportProject_cases.
  assert (Hgrow : forall (l : list (string * string)) x, (l ++ [x])%list <> l).
  { intros l x H. apply (f_equal (@length _)) in H. rewrite length_app in H.
    cbn in H. lia. }
  destruct (projectData w) as [d| ] eqn:Hpd.
  - destruct (JS.get "title" d) as [[ |b|n|title|xs|o]| ] eqn:Htitle; cbn;
      (split; [ repeat split; exact Hpd | ]); (split; [ reflexivity | ]);
      try (split; [ split; [ intros H; exfalso; apply H; reflexivity
                           | intros (d' & t & Hd' & Ht); congruence ]
                  | left; reflexivity ]).
    split; [ split; [ intros _; eauto | intros _; apply Hgrow ] | right; eauto ].
  - cbn. split; [ repeat split; exact Hpd | ]. split; [ reflexivity | ].
    split; [ | left; reflexivity ].
    split; [ intros H; exfalso; apply H; reflexivity
           | intros (d' & t & Hd' & _); discriminate ].
Qed.

(** X3.  The two ways an export fails.  With no active project the user is
    told so and nothing else happens.  With a project whose title is not a
    string the type error is caught and logged and a generic alert is
    shown.  Neither offers a file. *)
Theorem exportProject_failures : forall w : World,
  let w' := step w ExportProject in
  (projectData w = None ->
   dialogs w' = (dialogs w ++ [Alert "Tidak ada proyek aktif untuk diekspor."])%list /\
   console w' = console w /\
   downloads w' = downloads w) /\
  (forall d, projectData w = Some d ->
     (forall title, JS.get "title" d <> Some (JString title)) ->
     dialogs w' = (dialogs w ++ [Alert "Gagal mengekspor proyek."])%list /\
     (exists e, console w' = (console w ++ [("Failed to export project:", e)])%list /\
                exn_name e = "TypeError") /\
     downloads w' = downloads w).
Proof.
  intros w. cbn zeta. rewrite step_exportProject_exec, exportProject_cases. split.
  - intros ->. repeat split.
  - intros d -> Hnot.
    destruct (JS.get "title" d) as [[ |b|n|title|xs|o]| ] eqn:Htitle; cbn;
      try (split; [ reflexivity | split; [ eexists; split; reflexivity | reflexivity ] ]).
    exfalso. apply (Hnot title). reflexivity.
Qed.

(** *** Update *)

(** X4.  [onProjectUpdate] stores whatever project it is given, without
    any check, and [loadProject] does exactly the same.  Flags, dialogs and
    console are left alone, and from a consistent storage the slot then
    holds the new project's serialization. *)
Theorem onProjectUpdate_replaces : forall (w : World) (d : ProjectData),
  let w' := step w (OnProjectUpdate d) in
  step w (LoadProject d) = w' /\
  projectData w' = Some d /\
  isCreatingProject w' = isCreatingProject w /\
  isHumanizingCooldown w' = isHumanizingCooldown w /\
  dialogs w' = dialogs w /\
  console w' = console w /\
  (persisted w ->
   localStorage w' = <[STORAGE_KEY := JSON_stringify (JObject d) 0]> (localStorage w)).
Proof.
  intros w d. cbn zeta. split; [ reflexivity | ].
  unfold step. cbn [handler].
  destruct (dispatch_state (onProjectUpdate d) w) as (-> & -> & -> & -> & -> & _).
  repeat split.
  intros Hw. unfold dispatch.
  destruct (JS.same (projectData w) (projectData (exec (onProjectUpdate d) w))) eqn:Hsame.
  - apply JS_same_eq in Hsame. cbn in Hsame. unfold persisted in Hw.
    rewrite Hsame in Hw. cbn. symmetry. apply insert_id. exact Hw.
  - reflexivity.
Qed.

(** *** Import *)

(** X5.  An import that goes ahead on a text parsing to an object with
    truthy [title], [outline], [chapters] and [authorInfo] stores the
    object after the compatibility lines, announces success and logs
    nothing.  With no active project there is no prompt at all.  From a
    consistent storage the slot then holds the imported project. *)
Theorem importProject_accepts :
  forall (w : World) (answer : bool) (text : string) (o : JObj),
    projectData w = None \/ answer = true ->
    JSON_parse text = inr (JObject o) ->
    importable o = true ->
    let w' := step w (ImportProject answer text) in
    projectData w' = Some (compatibilityChecks o) /\
    dialogs w' =
      (dialogs w ++ overwrite_dialog w answer ++ [Alert "Proyek berhasil diimpor!"])%list /\
    (projectData w = None ->
     dialogs w' = (dialogs w ++ [Alert "Proyek berhasil diimpor!"])%list) /\
    console w' = console w /\
    isCreatingProject w' = isCreatingProject w /\
    isHumanizingCooldown w' = isHumanizingCooldown w /\
    (persisted w ->
     localStorage w' !! STORAGE_KEY
       = Some (JSON_stringify (JObject (compatibilityChecks o)) 0)).
Proof.
  intros w answer text o Hgo Hparse Hok. cbn zeta.
  assert (Hexec : exec (importProject answer text) w =
            with_dialogs
              (dialogs w ++ overwrite_dialog w answer ++ [Alert "Proyek berhasil diimpor!"])
              (with_projectData (Some (compatibilityChecks o)) w)).
  { unfold exec. rewrite importProject_spec. unfold overwrite_dialog.
    destruct (projectData w) as [d| ] eqn:Hpd.
    - destruct Hgo as [Hgo | ->]; [ discriminate | ]. cbn zeta.
      rewrite performImport_spec, Hparse, Hok. cbn. rewrite <- List.app_assoc.
      reflexivity.
    - rewrite performImport_spec, Hparse, Hok. reflexivity. }
  assert (Hpd' : projectData (step w (ImportProject answer text))
                 = Some (compatibilityChecks o)).
  { unfold step. cbn [handler].
    destruct (dispatch_state (importProject answer text) w) as (-> & _).
    rewrite Hexec. reflexivity. }
  split; [ exact Hpd' | ].
  unfold step in *. cbn [handler] in *.
  destruct (dispatch_state (importProject answer text) w)
    as (_ & Hc & Hh & Hd & Hcon & _).
  rewrite Hc, Hh, Hd, Hcon, Hexec. cbn.
  split; [ reflexivity | ].
  split; [ intros Hnone; unfold overwrite_dialog; rewrite Hnone; reflexivity | ].
  repeat split.
  intros Hw. pose proof (step_persisted w (ImportProject answer text) Hw) as Hp.
  unfold persisted, step in Hp. cbn [handler] in Hp. rewrite Hpd' in Hp. exact Hp.
Qed.

(** *** Storage *)

Lemma handler_storage_exact : forall (ev : Event) (w : World),
  localStorage (exec (handler ev) w) = localStorage w \/
  localStorage (exec (handler ev) w) = delete STORAGE_KEY (localStorage w).
Proof.
  intros ev w. destruct ev as [d|d|answer|fd|fd outcome| |answer text| |ms].
  - left. reflexivity.
  - left. reflexivity.
  - destruct answer; [ right | left ]; reflexivity.
  - left. reflexivity.
  - left. destruct outcome as [e|d]; reflexivity.
  - left. reflexivity.
  - left. cbn [handler]. unfold exec. rewrite importProject_spec.
    assert (Hperform : forall w1, localStorage (performImport text w1).2 = localStorage w1).
    { intros w1. rewrite performImport_spec.
      destruct (JSON_parse text) as [e|[ |b|n|str|xs|o]]; try reflexivity.
      destruct (importable o); reflexivity. }
    destruct (projectData w); [ destruct answer | ]; cbn zeta;
      rewrite ?Hperform; reflexivity.
  - left. cbn [handler]. rewrite exportProject_cases.
    destruct (projectData w) as [d| ]; [ | reflexivity ].
    destruct (JS.get "title" d) as [[ |b|n|str|xs|o]| ]; reflexivity.
  - left. cbn [handler]. rewrite elapse_spec. cbn.
    destruct (existsb _ (timers w)); reflexivity.
Qed.

Lemma persistEffect_other_keys : forall (w : World) (k : string),
  k <> STORAGE_KEY ->
  localStorage (exec persistEffect w) !! k = localStorage w !! k.
Proof.
  intros w k Hk. unfold persistEffect. unfold_m. cbn.
  destruct (projectData w); cbn.
  - apply lookup_insert_ne. congruence.
  - apply lookup_delete_ne. congruence.
Qed.

Lemma step_other_keys : forall (w : World) (ev : Event) (k : string),
  k <> STORAGE_KEY ->
  localStorage (step w ev) !! k = localStorage w !! k.
Proof.
  intros w ev k Hk. unfold step, dispatch.
  assert (Hh : localStorage (exec (handler ev) w) !! k = localStorage w !! k).
  { destruct (handler_storage_exact ev w) as [-> | ->]; [ reflexivity | ].
    apply lookup_delete_ne. congruence. }
  destruct (JS.same _ _); [ exact Hh | ].
  rewrite persistEffect_other_keys by exact Hk. exact Hh.
Qed.

(** X6.  The component owns one storage key.  Neither the first render nor
    any handler or timer ever writes or removes another key. *)
Theorem other_keys_untouched :
  forall (ls : gmap string string) (evs : list Event) (k : string),
    k <> STORAGE_KEY ->
    exists w0, mount ls = Some w0 /\
      localStorage w0 !! k = ls !! k /\
      localStorage (run w0 evs) !! k = ls !! k.
Proof.
  intros ls evs k Hk.
  assert (Hmount : exists w0, mount ls = Some w0 /\ localStorage w0 !! k = ls !! k).
  { unfold mount. rewrite getInitialData_spec. cbn [localStorage page].
    destruct (ls !! STORAGE_KEY) as [[ |c text]| ];
      [ | destruct (JSON_parse (String c text)) as [e|[ |b|n|str|xs|o]] | ];
      eexists; (split; [ reflexivity | ]);
      rewrite persistEffect_other_keys by exact Hk; reflexivity. }
  destruct Hmount as (w0 & Hm & H0). exists w0. split; [ exact Hm | ].
  split; [ exact H0 | ]. rewrite <- H0. clear Hm H0.
  revert w0. induction evs as [ | ev evs IH ]; intros w0; [ reflexivity | ].
  change (localStorage (run (step w0 ev) evs) !! k = localStorage w0 !! k).
  rewrite IH. apply step_other_keys, Hk.
Qed.

(** *** The project is only ever dropped by a confirmed reset *)

Lemma step_keeps_project : forall (w : World) (ev : Event),
  is_confirmed_reset ev = false ->
  projectData w <> None ->
  projectData (step w ev) <> None.
Proof.
  intros w ev Hev Hpd. unfold step.
  destruct (dispatch_state (handler ev) w) as (-> & _).
  destruct ev as [d|d|answer|fd|fd outcome| |answer text| |ms]; cbn [handler].
  - discriminate.
  - discriminate.
  - cbn in Hev. subst answer. exact Hpd.
  - exact Hpd.
  - unfold exec. rewrite createProject_settled_spec.
    destruct outcome; [ exact Hpd | discriminate ].
  - exact Hpd.
  - unfold exec. rewrite importProject_spec.
    assert (Hperform : forall w1, projectData w1 <> None ->
              projectData (performImport text w1).2 <> None).
    { intros w1 H1. rewrite performImport_spec.
      destruct (JSON_parse text) as [e|[ |b|n|str|xs|o]]; try exact H1.
      destruct (importable o); [ discriminate | exact H1 ]. }
    destruct (projectData w) eqn:Hw; [ | congruence ].
    destruct answer; cbn zeta; [ apply Hperform; cbn; congruence | cbn; congruence ].
  - rewrite exportProject_cases.
    destruct (projectData w) as [d| ] eqn:Hw; [ | congruence ].
    destruct (JS.get "title" d) as [[ |b|n|str|xs|o]| ]; cbn; congruence.
  - rewrite elapse_spec. cbn. destruct (existsb _ (timers w)); exact Hpd.
Qed.

(** X7.  After the first render a project is always active, and it stays
    so through any sequence of events that holds no confirmed reset: a
    failed creation, a rejected import or an export never leaves the store
    empty. *)
Theorem project_absent_only_after_reset :
  forall (ls : gmap string string) (evs : list Event),
    existsb is_confirmed_reset evs = false ->
    exists w0, mount ls = Some w0 /\
      projectData w0 <> None /\
      projectData (run w0 evs) <> None.
Proof.
  intros ls evs Hevs.
  assert (Hmount : exists w0, mount ls = Some w0 /\ projectData w0 <> None).
  { unfold mount. destruct (getInitialData_total (page ls)) as (d & w' & ->).
    eexists. split; [ reflexivity | ].
    unfold persistEffect. unfold_m. cbn. discriminate. }
  destruct Hmount as (w0 & Hm & H0). exists w0. split; [ exact Hm | ].
  split; [ exact H0 | ]. clear Hm.
  revert w0 H0. induction evs as [ | ev evs IH ]; intros w0 H0; [ exact H0 | ].
  cbn in Hevs. apply orb_false_iff in Hevs as [Hev Hevs].
  change (projectData (run (step w0 ev) evs) <> None).
  apply IH; [ exact Hevs | ]. apply step_keeps_project; assumption.
Qed.

(** *** The two flags *)

(** X8.  The flags are independent of the project.  Only the creation
    flow changes [isCreatingProject], only the cooldown call and its timers
    change [isHumanizingCooldown], and a timer never sets the cooldown
    flag, it can only clear it. *)
Theorem flags_orthogonal : forall (w : World) (ev : Event),
  (is_create_event ev = false ->
   isCreatingProject (step w ev) = isCreatingProject w) /\
  (is_cooldown_event ev = false ->
   isHumanizingCooldown (step w ev) = isHumanizingCooldown w) /\
  (forall ms, ev = Elapse ms ->
   isHumanizingCooldown (step w ev) = true -> isHumanizingCooldown w = true).
Proof.
  intros w ev. unfold step.
  destruct (dispatch_state (handler ev) w) as (_ & -> & -> & _).
  assert (Himport : forall answer text,
            isCreatingProject (exec (importProject answer text) w) = isCreatingProject w /\
            isHumanizingCooldown (exec (importProject answer text) w)
              = isHumanizingCooldown w).
  { intros answer text. unfold exec. rewrite importProject_spec.
    assert (Hperform : forall w1,
              isCreatingProject (performImport text w1).2 = isCreatingProject w1 /\
              isHumanizingCooldown (performImport text w1).2 = isHumanizingCooldown w1).
    { intros w1. rewrite performImport_spec.
      destruct (JSON_parse text) as [e|[ |b|n|str|xs|o]]; try (split; reflexivity).
      destruct (importable o); split; reflexivity. }
    destruct (projectData w); [ destruct answer | ]; cbn zeta;
      rewrite ?(proj1 (Hperform _)), ?(proj2 (Hperform _)); split; reflexivity. }
  assert (Hexport : isCreatingProject (exec exportProject w) = isCreatingProject w /\
                    isHumanizingCooldown (exec exportProject w) = isHumanizingCooldown w).
  { rewrite exportProject_cases. destruct (projectData w) as [d| ]; [ | split; reflexivity ].
    destruct (JS.get "title" d) as [[ |b|n|str|xs|o]| ]; split; reflexivity. }
  split; [ | split ].
  - intros Hev. destruct ev as [d|d|answer|fd|fd outcome| |answer text| |ms];
      try discriminate Hev; cbn [handler].
    + reflexivity.
    + reflexivity.
    + destruct answer; reflexivity.
    + reflexivity.
    + apply Himport.
    + apply Hexport.
    + rewrite elapse_spec. cbn. destruct (existsb _ (timers w)); reflexivity.
  - intros Hev. destruct ev as [d|d|answer|fd|fd outcome| |answer text| |ms];
      try discriminate Hev; cbn [handler].
    + reflexivity.
    + reflexivity.
    + destruct answer; reflexivity.
    + reflexivity.
    + unfold exec. rewrite createProject_settled_spec. destruct outcome; reflexivity.
    + apply Himport.
    + apply Hexport.
  - intros ms ->. cbn [handler]. rewrite elapse_spec. cbn.
    destruct (existsb _ (timers w)); cbn; [ discriminate | trivial ].
Qed.

(** *** Reloading the page *)

Lemma importable_loadable : forall o : JObj, importable o = true -> loadable o = true.
Proof.
  intros o. unfold importable, loadable. intros H.
  repeat (apply andb_true_iff in H as [H ?]). rewrite H. assumption.
Qed.

Lemma loadable_compatibilityChecks : forall o : JObj,
  loadable (compatibilityChecks o) = loadable o.
Proof.
  intros o. unfold loadable.
  rewrite !get_compatibilityChecks_other; [ reflexivity | | ];
    cbn; intros H; repeat (destruct H as [H | H]; [ discriminate H | ]); exact H.
Qed.

Lemma importable_compatibilityChecks : forall o : JObj,
  importable (compatibilityChecks o) = importable o.
Proof.
  intros o. unfold importable.
  rewrite !get_compatibilityChecks_other; [ reflexivity | | | | ];
    cbn; intros H; repeat (destruct H as [H | H]; [ discriminate H | ]); exact H.
Qed.

(** What a reload renders when the slot reads back as the project that was
    active. *)
Lemma reload_project : forall (w : World) (d : ProjectData),
  persisted w ->
  projectData w = Some d ->
  JSON_stringify (JObject d) 0 <> EmptyString ->
  JSON_parse (JSON_stringify (JObject d) 0) = inr (JObject d) ->
  reload w =
    Some (exec persistEffect
            (with_projectData
               (Some (if loadable d then compatibilityChecks d else initialProjectData))
               (page (localStorage w)))).
Proof.
  intros w d Hw Hpd Hne Hparse. unfold reload, mount.
  rewrite getInitialData_spec. cbn [localStorage page].
  unfold persisted in Hw. rewrite Hpd in Hw. rewrite Hw.
  destruct (JSON_stringify (JObject d) 0) as [ |c text] eqn:Htext; [ congruence | ].
  rewrite Hparse. reflexivity.
Qed.

(** X9.  A project survives a reload of the page when it has a truthy
    [title] and [authorInfo], its optional fields need no backfill, and the
    slot reads back as written: the new first render shows the same project
    and leaves the storage as it was. *)
Theorem reload_restores_project : forall (w : World) (d : ProjectData),
  persisted w ->
  projectData w = Some d ->
  JSON_stringify (JObject d) 0 <> EmptyString ->
  JSON_parse (JSON_stringify (JObject d) 0) = inr (JObject d) ->
  loadable d = true ->
  settled d = true ->
  exists w', reload w = Some w' /\
    projectData w' = Some d /\
    localStorage w' = localStorage w /\
    isCreatingProject w' = false /\
    isHumanizingCooldown w' = false.
Proof.
  intros w d Hw Hpd Hne Hparse Hload Hs.
  rewrite (reload_project w d Hw Hpd Hne Hparse), Hload.
  apply compatibilityChecks_fixed in Hs. rewrite Hs.
  eexists. split; [ reflexivity | ].
  unfold persistEffect. unfold_m. cbn. repeat split.
  apply insert_id. unfold persisted in Hw. rewrite Hpd in Hw. exact Hw.
Qed.

(** X10.  A project without a truthy [title] or [authorInfo] is stored
    like any other, but a reload does not bring it back: the first render
    falls back to the built-in project and overwrites the slot with it. *)
Theorem reload_drops_unloadable : forall (w : World) (d : ProjectData),
  persisted w ->
  projectData w = Some d ->
  JSON_parse (JSON_stringify (JObject d) 0) = inr (JObject d) ->
  loadable d = false ->
  localStorage w !! STORAGE_KEY = Some (JSON_stringify (JObject d) 0) /\
  exists w', reload w = Some w' /\
    projectData w' = Some initialProjectData /\
    localStorage w' !! STORAGE_KEY = Some (JSON_stringify (JObject initialProjectData) 0).
Proof.
  intros w d Hw Hpd Hparse Hload.
  assert (Hslot : localStorage w !! STORAGE_KEY = Some (JSON_stringify (JObject d) 0)).
  { unfold persisted in Hw. rewrite Hpd in Hw. exact Hw. }
  split; [ exact Hslot | ].
  unfold reload, mount. rewrite getInitialData_spec. cbn [localStorage page].
  rewrite Hslot.
  destruct (JSON_stringify (JObject d) 0) as [ |c text].
  - eexists. split; [ reflexivity | ].
    unfold persistEffect. unfold_m. cbn. split; [ reflexivity | apply lookup_insert_eq ].
  - rewrite Hparse, Hload. eexists. split; [ reflexivity | ].
    unfold persistEffect. unfold_m. cbn. split; [ reflexivity | apply lookup_insert_eq ].
Qed.

(** X11.  A confirmed reset empties the store only until the next reload:
    with the slot gone, the first render shows the built-in project again
    and stores it. *)
Theorem reset_then_reload : forall w : World,
  exists w', reload (step w (StartNewProject true)) = Some w' /\
    projectData w' = Some initialProjectData /\
    localStorage w' !! STORAGE_KEY = Some (JSON_stringify (JObject initialProjectData) 0).
Proof.
  intros w. unfold reload, mount. rewrite getInitialData_spec. cbn [localStorage page].
  assert (Hgone : localStorage (step w (StartNewProject true)) !! STORAGE_KEY = None).
  { unfold step, dispatch. cbn.
    destruct (projectData w) as [d| ]; cbn; apply lookup_delete_eq. }
  rewrite Hgone. eexists. split; [ reflexivity | ].
  unfold persistEffect. unfold_m. cbn. split; [ reflexivity | apply lookup_insert_eq ].
Qed.

(** X12.  What an import stores comes back after a reload: the imported
    project passes the weaker test of the loader and needs no further
    backfill. *)
Theorem imported_project_survives_reload :
  forall (w : World) (answer : bool) (text : string) (o : JObj),
    persisted w ->
    projectData w = None \/ answer = true ->
    JSON_parse text = inr (JObject o) ->
    importable o = true ->
    JSON_stringify (JObject (compatibilityChecks o)) 0 <> EmptyString ->
    JSON_parse (JSON_stringify (JObject (compatibilityChecks o)) 0)
      = inr (JObject (compatibilityChecks o)) ->
    exists w', reload (step w (ImportProject answer text)) = Some w' /\
      projectData w' = Some (compatibilityChecks o).
Proof.
  intros w answer text o Hw Hgo Hparse Hok Hne Hback.
  assert (Hpd : projectData (step w (ImportProject answer text))
                = Some (compatibilityChecks o)).
  { unfold step. cbn [handler].
    destruct (dispatch_state (importProject answer text) w) as (-> & _).
    unfold exec. rewrite importProject_spec.
    destruct (projectData w) as [d| ] eqn:Hcur.
    - destruct Hgo as [Hgo | ->]; [ discriminate | ]. cbn zeta.
      rewrite performImport_spec, Hparse, Hok. reflexivity.
    - rewrite performImport_spec, Hparse, Hok. reflexivity. }
  rewrite (reload_project _ _ (step_persisted w _ Hw) Hpd Hne Hback).
  rewrite loadable_compatibilityChecks, (importable_loadable o Hok).
  rewrite (proj1 (compatibilityChecks_fixed _) (compatibilityChecks_settles o)).
  eexists. split; [ reflexivity | ].
  unfold persistEffect. unfold_m. reflexivity.
Qed.

(** X13.  What an import stores is stable under export and import: when
    the imported project has a string title and the exported text reads
    back as written, exporting it and importing the file again leaves the
    same project. *)
Theorem imported_project_round_trips :
  forall (w : World) (answer : bool) (text title : string) (o : JObj),
    projectData w = None \/ answer = true ->
    JSON_parse text = inr (JObject o) ->
    importable o = true ->
    JS.get "title" o = Some (JString title) ->
    JSON_parse (JSON_stringify (JObject (compatibilityChecks o)) 2)
      = inr (JObject (compatibilityChecks o)) ->
    let exported := JSON_stringify (JObject (compatibilityChecks o)) 2 in
    let w1 := step w (ImportProject answer text) in
    let w2 := step w1 ExportProject in
    projectData w1 = Some (compatibilityChecks o) /\
    downloads w2 =
      (downloads w1 ++
       [(Str.fileName (Str.sanitize (String_toLowerCase title)), exported)])%list /\
    projectData (step w2 (ImportProject true exported)) = Some (compatibilityChecks o).
Proof.
  intros w answer text title o Hgo Hparse Hok Htitle Hback. cbn zeta.
  assert (Hpd : projectData (step w (ImportProject answer text))
                = Some (compatibilityChecks o)).
  { unfold step. cbn [handler].
    destruct (dispatch_state (importProject answer text) w) as (-> & _).
    unfold exec. rewrite importProject_spec.
    destruct (projectData w) as [d| ] eqn:Hcur.
    - destruct Hgo as [Hgo | ->]; [ discriminate | ]. cbn zeta.
      rewrite performImport_spec, Hparse, Hok. reflexivity.
    - rewrite performImport_spec, Hparse, Hok. reflexivity. }
  split; [ exact Hpd | ].
  apply export_import_settled.
  - exact Hpd.
  - rewrite get_compatibilityChecks_other; [ exact Htitle | ].
    cbn. intros H. repeat (destruct H as [H | H]; [ discriminate H | ]). exact H.
  - apply compatibilityChecks_settles.
  - exact Hback.
Qed.

(** *** Creation *)

Lemma get_omit : forall (ks : list string) (k : string) (o : JObj),
  JS.get k (JS.omit ks o) = if existsb (String.eqb k) ks then None else JS.get k o.
Proof.
  intros ks k o. induction o as [ | [k0 v0] o IH ].
  - cbn. destruct (existsb _ ks); reflexivity.
  - unfold JS.omit in *. cbn [List.filter fst JS.get].
    destruct (String.eqb_spec k k0) as [<- | Hne].
    + destruct (existsb (String.eqb k) ks) eqn:Hin; cbn [negb].
      * rewrite IH. reflexivity.
      * cbn [JS.get]. rewrite String.eqb_refl. reflexivity.
    + destruct (existsb (String.eqb k0) ks); cbn [negb]; [ exact IH | ].
      cbn [JS.get]. apply String.eqb_neq in Hne. rewrite Hne. exact IH.
Qed.

(** X14.  A call of [createProject] sends one request to the generation
    service: the form's [title] and [academicLevel], and as author
    information every other field of the form with its value, and neither
    of those two.  Nothing else changes before the service answers. *)
Theorem createProject_request : forall (formData : JObj) (w : World),
  let w' := step w (CreateProject formData) in
  exists authorInfo,
    requests w' =
      (requests w ++
       [(authorInfo, JS.get "title" formData, JS.get "academicLevel" formData)])%list /\
    JS.get "title" authorInfo = None /\
    JS.get "academicLevel" authorInfo = None /\
    (forall k, k <> "title" -> k <> "academicLevel" ->
       JS.get k authorInfo = JS.get k formData) /\
    projectData w' = projectData w /\
    localStorage w' = localStorage w /\
    dialogs w' = dialogs w.
Proof.
  intros formData w. cbn zeta.
  exists (JS.omit ["title"; "academicLevel"] formData).
  unfold step. cbn [handler]. rewrite dispatch_unchanged by reflexivity.
  split; [ reflexivity | ].
  split; [ rewrite get_omit; reflexivity | ].
  split; [ rewrite get_omit; reflexivity | ].
  split; [ | repeat split ].
  intros k Ht Hl. rewrite get_omit. cbn [existsb].
  apply String.eqb_neq in Ht, Hl. rewrite Ht, Hl. reflexivity.
Qed.

Lemma dispatch_requests : forall (h : M unit) (w : World),
  requests (dispatch h w) = requests (exec h w).
Proof.
  intros h w. unfold dispatch. destruct (JS.same _ _); [ reflexivity | ].
  unfold persistEffect. unfold_m. cbn.
  destruct (projectData (h w).2); reflexivity.
Qed.

Lemma step_createProject : forall (formData : JObj) (w : World),
  step w (CreateProject formData) =
    with_requests
      (requests w ++
       [(JS.omit ["title"; "academicLevel"] formData,
         JS.get "title" formData, JS.get "academicLevel" formData)])
      (with_isCreatingProject true w).
Proof.
  intros formData w. unfold step. cbn [handler].
  rewrite dispatch_unchanged; reflexivity.
Qed.

(** X15.  [isCreatingProject] does not count requests.  With two creations
    in flight the flag is set, and it is cleared as soon as one of them
    settles, although the other request is still pending. *)
Theorem createProject_overlap :
  forall (w : World) (a b : JObj) (outcome : Exn + ProjectData),
    let w2 := run w [CreateProject a; CreateProject b] in
    let w3 := step w2 (CreateProjectSettled a outcome) in
    isCreatingProject w2 = true /\
    length (requests w2) = (length (requests w) + 2)%nat /\
    isCreatingProject w3 = false /\
    requests w3 = requests w2.
Proof.
  intros w a b outcome. cbn zeta. unfold run. cbn [fold_left].
  rewrite !step_createProject.
  split; [ reflexivity | ].
  split; [ cbn [requests with_requests with_isCreatingProject];
           rewrite !List.length_app; cbn; lia | ].
  unfold step. cbn [handler].
  match goal with
  | |- context [dispatch ?h ?w0] =>
      destruct (dispatch_state h w0) as (_ & -> & _);
      rewrite (dispatch_requests h w0)
  end.
  unfold exec. rewrite createProject_settled_spec.
  split; [ reflexivity | destruct outcome; reflexivity ].
Qed.

(** *** Cooldown timers *)

(** X16.  [startHumanizingCooldown] never cancels a timer: each call adds
    one timer, due 15 seconds later, to those already pending, and touches
    neither the project, the storage nor the creation flag.  Whatever was
    pending, the flag is cleared once 15 seconds have passed with no
    further call, and the timers that are left are those of the world
    before the call that are not yet due. *)
Theorem startHumanizingCooldown_schedules : forall w : World,
  let w1 := step w StartHumanizingCooldown in
  timers w1 = (timers w ++ [((now w + COOLDOWN_MS)%N, ResetCooldown)])%list /\
  projectData w1 = projectData w /\
  localStorage w1 = localStorage w /\
  isCreatingProject w1 = isCreatingProject w /\
  dialogs w1 = dialogs w /\
  (forall ms : N, (COOLDOWN_MS <= ms)%N ->
     let w2 := step w1 (Elapse ms) in
     isHumanizingCooldown w2 = false /\
     now w2 = (now w + ms)%N /\
     timers w2 = List.filter (fun p => negb (fst p <=? now w + ms)%N) (timers w)).
Proof.
  intros w. cbn zeta. rewrite step_startHumanizingCooldown.
  repeat (split; [ reflexivity | ]).
  intros ms Hms. split; [ | split ].
  - rewrite <- step_startHumanizingCooldown, cooldown_after_call.
    assert (Hlt : (ms <? COOLDOWN_MS)%N = false) by (apply N.ltb_ge; exact Hms).
    rewrite Hlt. reflexivity.
  - rewrite step_elapse. cbn zeta. destruct (existsb _ _); reflexivity.
  - rewrite step_elapse. cbn zeta.
    cbn [now timers with_clock with_isHumanizingCooldown].
    assert (Ht : timers
                   (with_clock (now w + ms)
                      (List.filter (fun p => negb (fst p <=? now w + ms)%N)
                         (timers w ++ [((now w + COOLDOWN_MS)%N, ResetCooldown)]))
                      (with_clock (now w)
                         (timers w ++ [((now w + COOLDOWN_MS)%N, ResetCooldown)])
                         (with_isHumanizingCooldown true w)))
                 = List.filter (fun p => negb (fst p <=? now w + ms)%N) (timers w)).
    { cbn [timers with_clock]. rewrite List.filter_app. cbn [List.filter fst].
      assert (Hdue : (now w + COOLDOWN_MS <=? now w + ms)%N = true)
        by (apply N.leb_le; lia).
      rewrite Hdue. cbn [negb]. apply List.app_nil_r. }
    destruct (existsb _ _); exact Ht.
Qed.

(** *** Loading *)

(** X17.  Whatever [getInitialData] returns is either the built-in
    project or the object stored in the slot, which then has a truthy
    [title] and [authorInfo], after the compatibility lines, so that every
    optional field is present and needs no further backfill.  A stored
    object with truthy [title] and [authorInfo] is never passed over for the
    built-in project.  Loading reads the storage and writes nothing: state,
    storage and dialogs are as before. *)
Theorem getInitialData_result : forall w : World,
  exists d,
    fst (getInitialData w) = Normal (Some d) /\
    (d = initialProjectData \/
     exists text o,
       localStorage w !! STORAGE_KEY = Some text /\
       JSON_parse text = inr (JObject o) /\
       loadable o = true /\
       d = compatibilityChecks o /\
       loadable d = true /\
       settled d = true) /\
    (forall text o,
       localStorage w !! STORAGE_KEY = Some text ->
       text <> EmptyString ->
       JSON_parse text = inr (JObject o) ->
       loadable o = true ->
       d = compatibilityChecks o) /\
    same_store w (snd (getInitialData w)) /\
    dialogs (snd (getInitialData w)) = dialogs w.
Proof.
  intros w. rewrite getInitialData_spec.
  destruct (localStorage w !! STORAGE_KEY) as [[ |c text]| ] eqn:Hslot.
  - exists initialProjectData. split; [ reflexivity | ].
    split; [ left; reflexivity | ].
    split; [ | split; [ repeat split | reflexivity ] ].
    intros t o Ht Hne. injection Ht as <-. exfalso. apply Hne. reflexivity.
  - destruct (JSON_parse (String c text)) as [e|[ |b|n|str|xs|o]] eqn:Hparse;
      try (exists initialProjectData; split; [ reflexivity | ];
           split; [ left; reflexivity | ];
           split; [ | split; [ repeat split | reflexivity ] ];
           intros t o' Ht _ Hp _; injection Ht as <-;
           rewrite Hparse in Hp; discriminate Hp).
    destruct (loadable o) eqn:Hload.
    + exists (compatibilityChecks o). split; [ reflexivity | ].
      split.
      { right. exists (String c text), o.
        split; [ reflexivity | ]. split; [ exact Hparse | ].
        split; [ exact Hload | ]. split; [ reflexivity | ].
        split; [ rewrite loadable_compatibilityChecks; exact Hload
               | apply compatibilityChecks_settles ]. }
      split; [ | split; [ repeat split | reflexivity ] ].
      intros t o' Ht _ Hp _. injection Ht as <-.
      rewrite Hparse in Hp. injection Hp as <-. reflexivity.
    + exists initialProjectData. split; [ reflexivity | ].
      split; [ left; reflexivity | ].
      split; [ | split; [ repeat split | reflexivity ] ].
      intros t o' Ht _ Hp Hl. injection Ht as <-.
      rewrite Hparse in Hp. injection Hp as <-. congruence.
  - exists initialProjectData. split; [ reflexivity | ].
    split; [ left; reflexivity | ].
    split; [ | split; [ repeat split | reflexivity ] ].
    intros t o Ht. discriminate Ht.
Qed.

(** *** The compatibility lines and the order of properties *)

Lemma keys_set : forall (k : string) (v : JValue) (o : JObj),
  List.map fst (JS.set k v o) =
    match JS.get k o with
    | Some _ => List.map fst o
    | None => (List.map fst o ++ [k])%list
    end.
Proof.
  intros k v o. induction o as [ | [k0 v0] o IH ]; [ reflexivity | ].
  cbn [JS.set JS.get]. destruct (String.eqb k k0); [ reflexivity | ].
  cbn [List.map fst]. rewrite IH. destruct (JS.get k o); reflexivity.
Qed.

Lemma keys_default_if_falsy : forall (k : string) (d : JValue) (o : JObj),
  List.map fst (default_if_falsy k d o) =
    match JS.get k o with
    | Some _ => List.map fst o
    | None => (List.map fst o ++ [k])%list
    end.
Proof.
  intros k d o. unfold default_if_falsy.
  destruct (JS.truthy_prop (JS.get k o)) eqn:Ht; [ | apply keys_set ].
  destruct (JS.get k o); [ reflexivity | discriminate Ht ].
Qed.

Lemma get_None_not_In : forall (k : string) (o : JObj),
  JS.get k o = None -> ~ In k (List.map fst o).
Proof.
  intros k o. induction o as [ | [k0 v0] o IH ]; cbn; [ intros _ [] | ].
  destruct (String.eqb_spec k k0) as [-> | Hne]; [ discriminate | ].
  intros H [Heq | Hin]; [ exact (Hne (eq_sym Heq)) | exact (IH H Hin) ].
Qed.

Lemma keys_compatibilityChecks : forall o : JObj,
  List.map fst (compatibilityChecks o) = (List.map fst o ++ missing_fields o)%list.
Proof.
  intros o. unfold compatibilityChecks, missing_fields. cbn zeta.
  repeat (rewrite keys_default_if_falsy;
          repeat (rewrite get_default_if_falsy; cbn [String.eqb Ascii.eqb Bool.eqb])).
  cbn [List.map fst optional_fields List.filter].
  destruct (JS.get "bibliography" o), (JS.get "appendices" o),
    (JS.get "statementPageData" o), (JS.get "approvalData" o),
    (JS.get "preface" o), (JS.get "abstract" o);
    cbn; rewrite <- ?List.app_assoc; cbn; rewrite ?List.app_nil_r; reflexivity.
Qed.

(** X18.  The compatibility lines never remove, rename or reorder what a
    stored or imported object holds: its properties stay in place and the
    optional fields it lacks are appended after them, in the order of the
    lines.  Distinct keys stay distinct. *)
Theorem compatibilityChecks_keeps_keys : forall o : JObj,
  List.map fst (compatibilityChecks o) = (List.map fst o ++ missing_fields o)%list /\
  (length o <= length (compatibilityChecks o) <= length o + 6)%nat /\
  (List.NoDup (List.map fst o) -> List.NoDup (List.map fst (compatibilityChecks o))).
Proof.
  intros o. split; [ apply keys_compatibilityChecks | ].
  assert (Hlen : length (compatibilityChecks o)
                 = (length o + length (missing_fields o))%nat).
  { rewrite <- (List.length_map fst (compatibilityChecks o)), keys_compatibilityChecks.
    rewrite List.length_app, List.length_map. reflexivity. }
  split.
  - rewrite Hlen. unfold missing_fields.
    pose proof (List.filter_length_le
                  (fun k => match JS.get k o with Some _ => false | None => true end)
                  (List.map fst optional_fields)) as Hle.
    cbn [List.map length optional_fields] in Hle. cbn [List.map optional_fields]. lia.
  - intros Hnd. rewrite keys_compatibilityChecks.
    apply List.NoDup_app; [ exact Hnd | | ].
    + unfold missing_fields. apply List.NoDup_filter.
      cbn. repeat constructor; cbn; intros H;
        repeat (destruct H as [H | H]; [ discriminate H | ]); exact H.
    + intros k Hin Hmiss. unfold missing_fields in Hmiss.
      apply List.filter_In in Hmiss as [_ Hnone].
      destruct (JS.get k o) eqn:Hget; [ discriminate | ].
      exact (get_None_not_In k o Hget Hin).
Qed.

(** *** The exported file's name *)

Lemma all_chars_replace_runs : forall (s : string) (in_run : bool),
  all_chars slug_char (Str.replace_runs in_run s) = true.
Proof.
  induction s as [ | c s IH ]; intros in_run; [ reflexivity | ].
  cbn [Str.replace_runs]. destruct (Str.in_class c) eqn:Hc.
  - cbn [all_chars]. unfold slug_char at 1. rewrite Hc. apply IH.
  - destruct in_run; [ apply IH | ]. cbn [all_chars]. rewrite IH. reflexivity.
Qed.

Lemma all_chars_drop_final : forall (p : ascii -> bool) (s : string),
  all_chars p s = true -> all_chars p (Str.drop_final_hyphen s) = true.
Proof.
  intros p. induction s as [ | c s IH ]; intros H; [ reflexivity | ].
  cbn [all_chars] in H. apply andb_true_iff in H as [Hc Hs].
  destruct s as [ | b s ].
  - cbn. destruct (Str.is_hyphen c); [ reflexivity | cbn; rewrite Hc; reflexivity ].
  - change (Str.drop_final_hyphen (String c (String b s)))
      with (String c (Str.drop_final_hyphen (String b s))).
    cbn [all_chars]. rewrite Hc. apply IH, Hs.
Qed.

Lemma no_double_tail : forall (c : ascii) (s : string),
  Str.no_double_hyphen (String c s) = true ->
  Str.no_double_hyphen s = true /\
  (Str.is_hyphen c = true -> Str.starts_with_hyphen s = false).
Proof.
  intros c [ | b s ] H; [ split; reflexivity | ].
  change (negb (Str.is_hyphen c && Str.is_hyphen b)
          && Str.no_double_hyphen (String b s) = true) in H.
  apply andb_true_iff in H as [Hcb Hs]. split; [ exact Hs | ].
  intros Hc. rewrite Hc in Hcb. cbn in *. apply negb_true_iff in Hcb. exact Hcb.
Qed.

Lemma drop_final_facts : forall s : string,
  Str.no_double_hyphen s = true ->
  Str.no_double_hyphen (Str.drop_final_hyphen s) = true /\
  ends_with_hyphen (Str.drop_final_hyphen s) = false /\
  (Str.starts_with_hyphen s = false ->
   Str.starts_with_hyphen (Str.drop_final_hyphen s) = false).
Proof.
  induction s as [ | c s IH ]; intros Hs; [ repeat split | ].
  destruct (no_double_tail c s Hs) as [Htail Hstart].
  destruct s as [ | b s ].
  - cbn. destruct (Str.is_hyphen c) eqn:Hc; [ repeat split | ].
    cbn. rewrite Hc. repeat split.
  - change (Str.drop_final_hyphen (String c (String b s)))
      with (String c (Str.drop_final_hyphen (String b s))).
    destruct (IH Htail) as (IHd & IHe & IHs).
    destruct (Str.drop_final_hyphen (String b s)) as [ | b' s' ] eqn:Hd.
    + destruct s as [ | b2 s ]; [ | discriminate Hd ].
      cbn in Hd. destruct (Str.is_hyphen b) eqn:Hb; [ | discriminate Hd ].
      assert (Hc : Str.is_hyphen c = false).
      { destruct (Str.is_hyphen c) eqn:Hc; [ | reflexivity ].
        specialize (Hstart eq_refl). cbn in Hstart. congruence. }
      cbn. rewrite Hc. repeat split.
    + split; [ | split ].
      * apply no_double_hyphen_cons; [ | exact IHd ].
        destruct (Str.is_hyphen c) eqn:Hc; [ | reflexivity ].
        cbn [andb]. apply IHs, Hstart. reflexivity.
      * exact IHe.
      * intros H. exact H.
Qed.

Lemma sanitize_safe_slug : forall lowered : string,
  safe_slug (Str.sanitize lowered) = true.
Proof.
  intros lowered. unfold Str.sanitize.
  set (r := Str.replace_runs false lowered).
  pose proof (all_chars_replace_runs lowered false) as Hall.
  pose proof (replace_runs_no_double_hyphen lowered false) as Hnd.
  fold r in Hall, Hnd. clearbody r. unfold safe_slug, Str.strip_edge_hyphens.
  destruct r as [ | c r ]; [ reflexivity | ].
  destruct (no_double_tail c r Hnd) as [Htail Hstart].
  cbn [all_chars] in Hall. apply andb_true_iff in Hall as [Hc Hall].
  destruct (Str.is_hyphen c) eqn:Hhy.
  - destruct (drop_final_facts r Htail) as (Hd & He & Hs).
    rewrite (all_chars_drop_final _ r Hall), Hd, He, (Hs (Hstart eq_refl)). reflexivity.
  - destruct (drop_final_facts (String c r) Hnd) as (Hd & He & Hs).
    rewrite (all_chars_drop_final _ (String c r)), Hd, He, Hs; try reflexivity.
    + cbn. exact Hhy.
    + cbn [all_chars]. rewrite Hc. exact Hall.
Qed.

(** X19.  The name of an exported file is always
    [proyek-akademik-<name>.json] with a non-empty [<name>] made of
    lower-case ASCII letters, digits and single hyphens, with no hyphen at
    either end, whatever characters the title holds. *)
Theorem exportProject_name_is_safe :
  forall (w : World) (d : ProjectData) (title : string),
    projectData w = Some d ->
    JS.get "title" d = Some (JString title) ->
    exists name,
      downloads (step w ExportProject) =
        (downloads w ++
         [(String.append "proyek-akademik-" (String.append name ".json"),
           JSON_stringify (JObject d) 2)])%list /\
      safe_slug name = true /\
      name <> EmptyString.
Proof.
  intros w d title Hpd Htitle.
  exists (Str.or_else (Str.sanitize (String_toLowerCase title)) "tanpa-judul").
  split; [ | split ].
  - unfold step. cbn [handler].
    rewrite dispatch_unchanged; unfold exec;
      rewrite (exportProject_spec w d title Hpd Htitle); reflexivity.
  - pose proof (sanitize_safe_slug (String_toLowerCase title)) as Hs.
    destruct (Str.sanitize (String_toLowerCase title)); [ reflexivity | exact Hs ].
  - destruct (Str.sanitize (String_toLowerCase title)); discriminate.
Qed.









End ProjectProvider.

(** ** The reference parser inverts the reference serializer *)

Lemma append_cons : forall (c : ascii) (s t : string),
  String.append (String c s) t = String c (String.append s t).
Proof. reflexivity. Qed.

Lemma append_nil_l : forall s : string, String.append EmptyString s = s.
Proof. reflexivity. Qed.

Lemma append_nil_r : forall s : string, String.append s EmptyString = s.
Proof.
  induction s as [ | c s IH ]; [ reflexivity | ]. rewrite append_cons, IH. reflexivity.
Qed.

Lemma append_assoc : forall s t u : string,
  String.append (String.append s t) u = String.append s (String.append t u).
Proof.
  induction s as [ | c s IH ]; intros t u; [ reflexivity | ].
  rewrite !append_cons, IH. reflexivity.
Qed.

Lemma length_append : forall s t : string,
  String.length (String.append s t) = (String.length s + String.length t)%nat.
Proof.
  induction s as [ | c s IH ]; intros t; [ reflexivity | ].
  rewrite append_cons. cbn. rewrite IH. reflexivity.
Qed.

(** *** White space *)

Lemma skip_ws_blank : forall pre s : string,
  JSON.blank pre = true -> JSON.skip_ws (String.append pre s) = JSON.skip_ws s.
Proof.
  induction pre as [ | c pre IH ]; intros s Hb; [ reflexivity | ].
  cbn in Hb. apply andb_true_iff in Hb as [Hc Hb].
  rewrite append_cons. cbn. rewrite Hc. apply IH, Hb.
Qed.

Lemma skip_ws_stop : forall (c : ascii) (s : string),
  JSON.is_ws c = false -> JSON.skip_ws (String c s) = String c s.
Proof. intros c s Hc. cbn. rewrite Hc. reflexivity. Qed.

Lemma blank_spaces : forall n : nat, JSON.blank (JSON.spaces n) = true.
Proof. induction n as [ | n IH ]; [ reflexivity | exact IH ]. Qed.

Lemma blank_line_break : forall (gap : string) (n : nat),
  JSON.blank (JSON.line_break gap (JSON.spaces n)) = true.
Proof. intros [ | c gap ] n; [ reflexivity | apply blank_spaces ]. Qed.

Lemma spaces_append : forall n m : nat,
  String.append (JSON.spaces n) (JSON.spaces m) = JSON.spaces (n + m).
Proof.
  induction n as [ | n IH ]; intros m; [ reflexivity | ].
  cbn [JSON.spaces Nat.add]. rewrite append_cons, IH. reflexivity.
Qed.

(** *** String literals *)

Lemma parse_string_quote_char : forall (c : ascii) (t : string),
  JSON.parse_string (String.append (JSON.quote_char c) t)
    = JSON.cons_char c (JSON.parse_string t).
Proof.
  intros c t. destruct c as [[] [] [] [] [] [] [] []]; reflexivity.
Qed.

Lemma parse_string_quote_body : forall s rest : string,
  JSON.parse_string (String.append (JSON.quote_body s) (String JSON.dquote rest))
    = Some (s, rest).
Proof.
  induction s as [ | c s IH ]; intros rest; [ reflexivity | ].
  cbn [JSON.quote_body]. rewrite append_assoc, parse_string_quote_char, IH.
  reflexivity.
Qed.

(** *** Numbers *)

Lemma delimited_span : forall rest : string,
  JSON.delimited rest = true -> JSON.span_digits rest = (EmptyString, rest).
Proof.
  intros [ | c rest ] Hd; [ reflexivity | ].
  cbn in *. destruct c as [[] [] [] [] [] [] [] []]; try discriminate Hd; reflexivity.
Qed.

Lemma delimited_no_fraction : forall rest : string,
  JSON.delimited rest = true -> JSON.starts_fraction_or_exponent rest = false.
Proof.
  intros [ | c rest ] Hd; [ reflexivity | ].
  cbn in *. destruct c as [[] [] [] [] [] [] [] []]; try discriminate Hd; reflexivity.
Qed.

Lemma span_digits_uint : forall (d : Decimal.uint) (rest : string),
  JSON.delimited rest = true ->
  JSON.span_digits (String.append (NilEmpty.string_of_uint d) rest)
    = (NilEmpty.string_of_uint d, rest).
Proof.
  induction d as [ | d IH | d IH | d IH | d IH | d IH | d IH | d IH | d IH | d IH | d IH ];
    intros rest Hd; cbn [NilEmpty.string_of_uint];
    [ apply delimited_span, Hd | .. ];
    rewrite append_cons; cbn [JSON.span_digits]; rewrite (IH rest Hd); reflexivity.
Qed.

Lemma to_uint_head : forall p : positive,
  match Pos.to_uint p with
  | Decimal.Nil | Decimal.D0 _ => False
  | _ => True
  end.
Proof.
  intros p.
  assert (Hnorm : Decimal.unorm (Pos.to_uint p) = Pos.to_uint p).
  { rewrite <- (DecimalPos.Unsigned.to_of (Pos.to_uint p)).
    rewrite DecimalPos.Unsigned.of_to. reflexivity. }
  pose proof (DecimalPos.Unsigned.to_uint_nonnil p) as Hnil.
  destruct (Pos.to_uint p) as [ | d | d | d | d | d | d | d | d | d | d ] eqn:Hp;
    try exact I; [ congruence | ].
  unfold Decimal.unorm in Hnorm. cbn [Decimal.nzhead] in Hnorm.
  destruct (Decimal.nzhead d) as [ | u | u | u | u | u | u | u | u | u | u ] eqn:Hnz;
    try discriminate Hnorm.
  - injection Hnorm as <-. exact (DecimalPos.Unsigned.to_uint_nonzero p Hp).
  - exact (DecimalFacts.nzhead_nonzero d u Hnz).
Qed.

Lemma string_of_to_uint : forall p : positive,
  NilZero.string_of_uint (Pos.to_uint p) = NilEmpty.string_of_uint (Pos.to_uint p).
Proof.
  intros p. pose proof (to_uint_head p) as Hhead.
  destruct (Pos.to_uint p); [ destruct Hhead | reflexivity .. ].
Qed.

Lemma parse_nat_positive : forall (p : positive) (rest : string),
  JSON.delimited rest = true ->
  JSON.parse_nat (String.append (NilEmpty.string_of_uint (Pos.to_uint p)) rest)
    = Some (Z.pos p, rest).
Proof.
  intros p rest Hd. unfold JSON.parse_nat.
  rewrite (span_digits_uint _ rest Hd), (delimited_no_fraction rest Hd), orb_false_r.
  pose proof (to_uint_head p) as Hhead.
  assert (Hz : Z.of_uint (Pos.to_uint p) = Z.pos p).
  { unfold Z.of_uint. rewrite DecimalPos.Unsigned.of_to. reflexivity. }
  assert (Hu : NilZero.uint_of_string (NilEmpty.string_of_uint (Pos.to_uint p))
               = Some (Pos.to_uint p)).
  { rewrite <- string_of_to_uint. apply NilZero.usu.
    apply DecimalPos.Unsigned.to_uint_nonnil. }
  assert (Hl : JSON.has_leading_zero (NilEmpty.string_of_uint (Pos.to_uint p)) = false).
  { destruct (Pos.to_uint p) as [ | d | d | d | d | d | d | d | d | d | d ];
      try destruct Hhead; cbn [NilEmpty.string_of_uint JSON.has_leading_zero];
      destruct (NilEmpty.string_of_uint d); reflexivity. }
  rewrite Hl, Hu, Hz. reflexivity.
Qed.

Lemma uint_head_char : forall p : positive,
  exists c t, NilEmpty.string_of_uint (Pos.to_uint p) = String c t /\
    JSON.is_digit c = true.
Proof.
  intros p. pose proof (to_uint_head p) as Hhead.
  destruct (Pos.to_uint p); try destruct Hhead; cbn [NilEmpty.string_of_uint];
    eexists _, _; split; reflexivity.
Qed.

Lemma parse_number_to_string : forall (n : Z) (rest : string),
  JSON.delimited rest = true ->
  JSON.parse_number (String.append (JSON.number_to_string n) rest)
    = Some (JNumber n, rest).
Proof.
  intros n rest Hd. unfold JSON.number_to_string.
  destruct n as [ | p | p ]; cbn [Z.to_int NilZero.string_of_int].
  - change (NilZero.string_of_uint Decimal.zero) with "0".
    rewrite append_cons, append_nil_l. unfold JSON.parse_number.
    change (Ascii.eqb "0" "-") with false. cbv iota.
    unfold JSON.parse_nat. cbn [JSON.span_digits].
    change (JSON.is_digit "0") with true. cbv iota.
    rewrite (delimited_span rest Hd), (delimited_no_fraction rest Hd). reflexivity.
  - rewrite string_of_to_uint. unfold JSON.parse_number.
    destruct (uint_head_char p) as (c & t & Hc & Hdig).
    assert (Hminus : Ascii.eqb c "-" = false)
      by (destruct c as [[] [] [] [] [] [] [] []]; try discriminate Hdig; reflexivity).
    pose proof (parse_nat_positive p rest Hd) as Hn.
    rewrite Hc, append_cons in *. rewrite Hminus, Hn. reflexivity.
  - rewrite string_of_to_uint, append_cons. unfold JSON.parse_number.
    change (Ascii.eqb "-" "-") with true. cbv iota.
    rewrite (parse_nat_positive p rest Hd). reflexivity.
Qed.

(** *** Values *)

Lemma number_head : forall n : Z,
  exists c t, JSON.number_to_string n = String c t /\
    (Ascii.eqb c "-" = true \/ JSON.is_digit c = true).
Proof.
  intros [ | p | p ]; unfold JSON.number_to_string; cbn [Z.to_int NilZero.string_of_int].
  - exists "0"%char, EmptyString. split; [ reflexivity | right; reflexivity ].
  - rewrite string_of_to_uint. destruct (uint_head_char p) as (c & t & -> & Hc). eauto.
  - eexists _, _. split; [ reflexivity | left; reflexivity ].
Qed.

(** A serialized value starts with a character that is neither white
    space nor a closing bracket. *)
Lemma serialize_head : forall (gap indent : string) (v : JValue),
  exists c t, JSON.serialize gap indent v = String c t /\
    JSON.is_ws c = false /\ Ascii.eqb c "]" = false.
Proof.
  intros gap indent [ | [ | ] | n | s | xs | props ].
  - eexists _, _. repeat split.
  - eexists _, _. repeat split.
  - eexists _, _. repeat split.
  - cbn [JSON.serialize]. destruct (number_head n) as (c & t & -> & Hc).
    exists c, t. split; [ reflexivity | ].
    destruct c as [[] [] [] [] [] [] [] []]; destruct Hc as [Hc | Hc];
      try discriminate Hc; split; reflexivity.
  - eexists _, _. repeat split.
  - cbn [JSON.serialize]. unfold JSON.wrap.
    destruct (List.map _ xs); eexists _, _; repeat split.
  - cbn [JSON.serialize]. unfold JSON.wrap.
    destruct (List.map _ props); eexists _, _; repeat split.
Qed.

Lemma parse_value_unfold : forall (fuel : nat) (s : string),
  JSON.parse_value (S fuel) s =
    match JSON.skip_ws s with
    | EmptyString => None
    | String c s' =>
        if Ascii.eqb c "{" then
          match JSON.skip_ws s' with
          | String c' s'' =>
              if Ascii.eqb c' "}" then Some (JObject [], s'')
              else JSON.parse_members fuel [] s'
          | EmptyString => None
          end
        else if Ascii.eqb c "[" then
          match JSON.skip_ws s' with
          | String c' s'' =>
              if Ascii.eqb c' "]" then Some (JArray [], s'')
              else JSON.parse_elements fuel [] s'
          | EmptyString => None
          end
        else if Ascii.eqb c JSON.dquote then
          match JSON.parse_string s' with
          | Some (body, rest) => Some (JString body, rest)
          | None => None
          end
        else if Ascii.eqb c "t" then JSON.parse_literal "true" (JBool true) (String c s')
        else if Ascii.eqb c "f" then JSON.parse_literal "false" (JBool false) (String c s')
        else if Ascii.eqb c "n" then JSON.parse_literal "null" JNull (String c s')
        else JSON.parse_number (String c s')
    end.
Proof. reflexivity. Qed.

Lemma parse_elements_unfold : forall (fuel : nat) (acc : list JValue) (s : string),
  JSON.parse_elements (S fuel) acc s =
    match JSON.parse_value fuel s with
    | Some (v, rest) =>
        match JSON.skip_ws rest with
        | String c rest' =>
            if Ascii.eqb c "," then JSON.parse_elements fuel (acc ++ [v]) rest'
            else if Ascii.eqb c "]" then Some (JArray (acc ++ [v]), rest')
            else None
        | EmptyString => None
        end
    | None => None
    end.
Proof. reflexivity. Qed.

Lemma parse_members_unfold : forall (fuel : nat) (acc : JObj) (s : string),
  JSON.parse_members (S fuel) acc s =
    match JSON.skip_ws s with
    | String q s' =>
        if Ascii.eqb q JSON.dquote then
          match JSON.parse_string s' with
          | Some (k, rest) =>
              match JSON.skip_ws rest with
              | String c rest' =>
                  if Ascii.eqb c ":" then
                    match JSON.parse_value fuel rest' with
                    | Some (v, rest'') =>
                        match JSON.skip_ws rest'' with
                        | String d rest3 =>
                            if Ascii.eqb d ","
                            then JSON.parse_members fuel (JS.set k v acc) rest3
                            else if Ascii.eqb d "}"
                            then Some (JObject (JS.set k v acc), rest3)
                            else None
                        | EmptyString => None
                        end
                    | None => None
                    end
                  else None
              | EmptyString => None
              end
          | None => None
          end
        else None
    | EmptyString => None
    end.
Proof. reflexivity. Qed.

Lemma parse_elements_serialize :
  forall (gap indent lb post : string) (xs : list JValue),
    Forall (JSON.parses_back gap indent) xs ->
    JSON.blank lb = true ->
    JSON.blank post = true ->
    forall (x : JValue) (fuel : nat) (acc : list JValue) (rest : string),
      JSON.parses_back gap indent x ->
      (list_sum (List.map (fun y => S (JSON.size y)) (x :: xs)) <= fuel)%nat ->
      JSON.parse_elements fuel acc
        (String.append lb
           (String.append
              (String.concat (String "," lb)
                 (List.map (JSON.serialize gap indent) (x :: xs)))
              (String.append post (String "]" rest))))
        = Some (JArray (acc ++ x :: xs), rest).
Proof.
  intros gap indent lb post xs Hxs Hlb Hpost.
  induction Hxs as [ | y ys Hy _ IH ]; intros x fuel acc rest Hx Hfuel.
  - cbn [List.map list_sum fold_right] in Hfuel.
    destruct fuel as [ | fuel ]; [ lia | ].
    rewrite parse_elements_unfold. cbn [List.map String.concat].
    rewrite Hx; [ | lia | exact Hlb | ].
    2: { destruct post as [ | c post ]; [ reflexivity | ].
         cbn in Hpost. apply andb_true_iff in Hpost as [Hc _].
         rewrite append_cons. cbn. rewrite Hc. reflexivity. }
    rewrite (skip_ws_blank post _ Hpost). reflexivity.
  - cbn [List.map list_sum fold_right] in Hfuel.
    destruct fuel as [ | fuel ]; [ lia | ].
    rewrite parse_elements_unfold.
    change (String.concat (String "," lb)
              (List.map (JSON.serialize gap indent) (x :: y :: ys)))
      with (String.append (JSON.serialize gap indent x)
              (String.append (String "," lb)
                 (String.concat (String "," lb)
                    (List.map (JSON.serialize gap indent) (y :: ys))))).
    rewrite !append_assoc, append_cons.
    rewrite Hx; [ | lia | exact Hlb | reflexivity ].
    cbn [JSON.skip_ws]. change (JSON.is_ws ",") with false. cbv iota.
    change (Ascii.eqb "," ",") with true. cbv iota.
    replace (acc ++ x :: y :: ys)%list with ((acc ++ [x]) ++ y :: ys)%list
      by (rewrite <- List.app_assoc; reflexivity).
    rewrite <- (IH y fuel (acc ++ [x])%list rest Hy);
      [ | cbn [List.map list_sum fold_right] in *; lia ].
    rewrite ?append_assoc. reflexivity.
Qed.

Lemma set_fresh : forall (k : string) (x : JValue) (acc : JObj),
  JS.get k acc = None -> JS.set k x acc = (acc ++ [(k, x)])%list.
Proof.
  intros k x acc. induction acc as [ | [k0 v0] acc IH ]; cbn; [ reflexivity | ].
  destruct (String.eqb k k0); [ discriminate | ].
  intros H. rewrite (IH H). reflexivity.
Qed.

Lemma distinct_fresh : forall (k : string) (x : JValue) (acc props : JObj),
  JSON.distinct (List.map fst (acc ++ (k, x) :: props)) = true ->
  JS.get k acc = None.
Proof.
  intros k x acc props. induction acc as [ | [k0 v0] acc IH ]; [ reflexivity | ].
  cbn [app List.map fst JSON.distinct JS.get]. intros H.
  apply andb_true_iff in H as [Hk0 H]. rewrite (String.eqb_sym k k0).
  destruct (String.eqb_spec k0 k) as [-> | _]; [ | apply IH, H ].
  apply negb_true_iff in Hk0. exfalso.
  assert (Hin : existsb (String.eqb k) (List.map fst (acc ++ (k, x) :: props)) = true).
  { apply List.existsb_exists. exists k. split; [ | apply String.eqb_refl ].
    apply List.in_map_iff. exists (k, x). split; [ reflexivity | ].
    apply List.in_or_app. right. left. reflexivity. }
  congruence.
Qed.

Lemma quote_append : forall k t : string,
  String.append (JSON.quote k) t =
    String JSON.dquote (String.append (JSON.quote_body k) (String JSON.dquote t)).
Proof.
  intros k t. unfold JSON.quote, JSON.str. rewrite append_cons, append_assoc. reflexivity.
Qed.

Lemma delimited_blank : forall (post : string) (c : ascii) (rest : string),
  JSON.blank post = true ->
  Ascii.eqb c "]" || Ascii.eqb c "}" = true ->
  JSON.delimited (String.append post (String c rest)) = true.
Proof.
  intros [ | b post ] c rest Hpost Hc.
  - rewrite append_nil_l. unfold JSON.delimited.
    apply orb_true_iff in Hc as [-> | ->]; rewrite ?orb_true_r; reflexivity.
  - cbn in Hpost. apply andb_true_iff in Hpost as [Hb _].
    rewrite append_cons. cbn. rewrite Hb. reflexivity.
Qed.

(** The colon, the optional space and the value of a member. *)
Lemma parse_member_value :
  forall (gap indent : string) (x : JValue) (fuel : nat) (R : string),
    JSON.parses_back gap indent x ->
    (JSON.size x <= fuel)%nat ->
    JSON.delimited R = true ->
    exists rest',
      String.append (match gap with EmptyString => ":" | _ => ": " end)
        (String.append (JSON.serialize gap indent x) R) = String ":" rest' /\
      JSON.parse_value fuel rest' = Some (x, R).
Proof.
  intros gap indent x fuel R Hx Hfuel HR. destruct gap as [ | g0 gap ].
  - eexists. split; [ reflexivity | ].
    apply (Hx fuel EmptyString R); [ exact Hfuel | reflexivity | exact HR ].
  - eexists. split; [ reflexivity | ].
    apply (Hx fuel " " R); [ exact Hfuel | reflexivity | exact HR ].
Qed.

Lemma parse_members_serialize :
  forall (gap indent lb post : string) (props : JObj),
    Forall (fun kv : string * JValue => JSON.parses_back gap indent (snd kv)) props ->
    JSON.blank lb = true ->
    JSON.blank post = true ->
    forall (k : string) (x : JValue) (fuel : nat) (acc : JObj) (rest : string),
      JSON.parses_back gap indent x ->
      JSON.distinct (List.map fst (acc ++ (k, x) :: props)) = true ->
      (list_sum
         (List.map (fun kv : string * JValue => let '(_, y) := kv in S (JSON.size y))
            ((k, x) :: props)) <= fuel)%nat ->
      JSON.parse_members fuel acc
        (String.append lb
           (String.append
              (String.concat (String "," lb)
                 (List.map
                    (fun kv : string * JValue =>
                       let '(k', y) := kv in
                       String.append (JSON.quote k')
                         (String.append
                            (match gap with EmptyString => ":" | _ => ": " end)
                            (JSON.serialize gap indent y)))
                    ((k, x) :: props)))
              (String.append post (String "}" rest))))
        = Some (JObject (acc ++ (k, x) :: props), rest).
Proof.
  intros gap indent lb post props Hprops Hlb Hpost.
  induction Hprops as [ | [k2 y] ps Hy _ IH ]; intros k x fuel acc rest Hx Hdist Hfuel.
  - cbn [List.map list_sum fold_right] in Hfuel.
    destruct fuel as [ | fuel ]; [ lia | ].
    rewrite parse_members_unfold. cbn [List.map String.concat].
    rewrite (skip_ws_blank lb _ Hlb), !append_assoc, quote_append.
    rewrite skip_ws_stop by reflexivity.
    change (Ascii.eqb JSON.dquote JSON.dquote) with true. cbv iota.
    rewrite parse_string_quote_body.
    destruct (parse_member_value gap indent x fuel
                (String.append post (String "}" rest)) Hx ltac:(lia)
                (delimited_blank post "}" rest Hpost eq_refl))
      as (rest' & Hcolon & Hvalue).
    rewrite Hcolon, skip_ws_stop by reflexivity.
    change (Ascii.eqb ":" ":") with true. cbv iota. rewrite Hvalue.
    rewrite (skip_ws_blank post _ Hpost), skip_ws_stop by reflexivity.
    change (Ascii.eqb "}" ",") with false. change (Ascii.eqb "}" "}") with true.
    cbv iota. rewrite (set_fresh k x acc (distinct_fresh k x acc [] Hdist)).
    reflexivity.
  - cbn [List.map list_sum fold_right] in Hfuel.
    destruct fuel as [ | fuel ]; [ lia | ].
    rewrite parse_members_unfold.
    cbn [List.map]. cbn [List.map] in IH.
    match goal with
    | |- context [String.concat ?sep (?m1 :: ?m2 :: ?ms)] =>
        change (String.concat sep (m1 :: m2 :: ms))
          with (String.append m1 (String.append sep (String.concat sep (m2 :: ms))))
    end.
    rewrite (skip_ws_blank lb _ Hlb), !append_assoc, quote_append.
    rewrite skip_ws_stop by reflexivity.
    change (Ascii.eqb JSON.dquote JSON.dquote) with true. cbv iota.
    rewrite parse_string_quote_body.
    match goal with
    | |- context [String.append (JSON.serialize gap indent x) ?R] =>
        destruct (parse_member_value gap indent x fuel R Hx ltac:(lia) eq_refl)
          as (rest' & Hcolon & Hvalue)
    end.
    rewrite Hcolon, skip_ws_stop by reflexivity.
    change (Ascii.eqb ":" ":") with true. cbv iota. rewrite Hvalue.
    rewrite append_cons, skip_ws_stop by reflexivity.
    change (Ascii.eqb "," ",") with true. cbv iota.
    rewrite (set_fresh k x acc (distinct_fresh k x acc _ Hdist)).
    replace (acc ++ (k, x) :: (k2, y) :: ps)%list
      with ((acc ++ [(k, x)]) ++ (k2, y) :: ps)%list
      by (rewrite <- List.app_assoc; reflexivity).
    rewrite <- (IH k2 y fuel (acc ++ [(k, x)])%list rest Hy).
    + rewrite ?append_assoc. reflexivity.
    + rewrite <- List.app_assoc. exact Hdist.
    + cbn [List.map list_sum fold_right] in *. simpl in Hy. lia.
Qed.

Lemma concat_head : forall (sep a : string) (l : list string) (T : string),
  exists T', String.append (String.concat sep (a :: l)) T = String.append a T'.
Proof.
  intros sep a [ | b l ] T.
  - exists T. reflexivity.
  - exists (String.append (String.append sep (String.concat sep (b :: l))) T).
    change (String.concat sep (a :: b :: l))
      with (String.append a (String.append sep (String.concat sep (b :: l)))).
    rewrite !append_assoc. reflexivity.
Qed.

Lemma forallb_Forall_parses_back :
  forall (gap indent : string) (xs : list JValue),
    Forall (fun x => JSON.well_formed x = true ->
                     forall g m : nat, JSON.parses_back (JSON.spaces g) (JSON.spaces m) x) xs ->
    forall g m : nat,
      forallb JSON.well_formed xs = true ->
      Forall (JSON.parses_back (JSON.spaces g) (JSON.spaces m)) xs.
Proof.
  intros _ _ xs Hxs g m Hwf. induction Hxs as [ | x xs Hx _ IH ]; constructor.
  - apply Hx. cbn in Hwf. apply andb_true_iff in Hwf as [H _]. exact H.
  - apply IH. cbn in Hwf. apply andb_true_iff in Hwf as [_ H]. exact H.
Qed.

Lemma forallb_Forall_parses_back_props :
  forall props : JObj,
    Forall (fun kv : string * JValue =>
              JSON.well_formed (snd kv) = true ->
              forall g m : nat, JSON.parses_back (JSON.spaces g) (JSON.spaces m) (snd kv))
      props ->
    forall g m : nat,
      forallb (fun kv : string * JValue => let '(_, x) := kv in JSON.well_formed x)
        props = true ->
      Forall (fun kv : string * JValue =>
                JSON.parses_back (JSON.spaces g) (JSON.spaces m) (snd kv)) props.
Proof.
  intros props Hprops g m Hwf.
  induction Hprops as [ | [k x] props Hx _ IH ]; constructor.
  - apply Hx. cbn in Hwf. apply andb_true_iff in Hwf as [H _]. exact H.
  - apply IH. cbn in Hwf. apply andb_true_iff in Hwf as [_ H]. exact H.
Qed.

Theorem parse_value_serialize : forall v : JValue,
  JSON.well_formed v = true ->
  forall g m : nat, JSON.parses_back (JSON.spaces g) (JSON.spaces m) v.
Proof.
  induction v as [ | b | n | s | xs IHxs | props IHprops ] using JValue_nested_ind;
    intros Hwf g m fuel pre rest Hfuel Hpre Hrest;
    (destruct fuel as [ | fuel ]; [ cbn in Hfuel; lia | ]);
    rewrite parse_value_unfold, (skip_ws_blank pre _ Hpre).
  - reflexivity.
  - destruct b; reflexivity.
  - cbn [JSON.serialize].
    pose proof (parse_number_to_string n rest Hrest) as Hn.
    destruct (number_head n) as (c & t & Hc & Hcd).
    rewrite Hc, append_cons in *.
    destruct c as [[] [] [] [] [] [] [] []]; destruct Hcd as [Hcd | Hcd];
      try discriminate Hcd; exact Hn.
  - cbn [JSON.serialize]. rewrite quote_append, skip_ws_stop by reflexivity.
    change (Ascii.eqb JSON.dquote "{") with false.
    change (Ascii.eqb JSON.dquote "[") with false.
    change (Ascii.eqb JSON.dquote JSON.dquote) with true. cbv iota.
    rewrite parse_string_quote_body. reflexivity.
  - cbn [JSON.serialize]. unfold JSON.wrap.
    destruct xs as [ | x xs ]; [ reflexivity | ].
    cbn [List.map]. cbv zeta. rewrite spaces_append.
    rewrite !append_assoc, append_cons, append_nil_l.
    rewrite skip_ws_stop by reflexivity.
    change (Ascii.eqb "[" "{") with false. change (Ascii.eqb "[" "[") with true.
    cbv iota.
    pose proof (blank_line_break (JSON.spaces g) (m + g)) as Hlb.
    pose proof (blank_line_break (JSON.spaces g) m) as Hpost.
    rewrite (skip_ws_blank _ _ Hlb).
    change (String.append "]" rest) with (String "]" rest).
    destruct (concat_head (String "," (JSON.line_break (JSON.spaces g) (JSON.spaces (m + g))))
                (JSON.serialize (JSON.spaces g) (JSON.spaces (m + g)) x)
                (List.map (JSON.serialize (JSON.spaces g) (JSON.spaces (m + g))) xs)
                (String.append (JSON.line_break (JSON.spaces g) (JSON.spaces m))
                   (String "]" rest))) as [T' HT].
    destruct (serialize_head (JSON.spaces g) (JSON.spaces (m + g)) x)
      as (c & t & Hc & Hws & Hclose).
    rewrite HT, Hc, append_cons, (skip_ws_stop c _ Hws), Hclose.
    rewrite <- append_cons, <- Hc, <- HT.
    cbn in Hwf. cbn [JSON.size] in Hfuel.
    pose proof (forallb_Forall_parses_back EmptyString EmptyString (x :: xs) IHxs g (m + g) Hwf)
      as Hall.
    inversion Hall as [ | ? ? Hx Hrest' ]; subst.
    apply (parse_elements_serialize _ _ _ _ xs Hrest' Hlb Hpost x fuel [] rest Hx).
    lia.
  - cbn [JSON.serialize]. unfold JSON.wrap.
    destruct props as [ | [k x] props ]; [ reflexivity | ].
    cbn [List.map]. cbv zeta. rewrite spaces_append.
    rewrite !append_assoc, append_cons, append_nil_l.
    rewrite skip_ws_stop by reflexivity.
    change (Ascii.eqb "{" "{") with true. cbv iota.
    pose proof (blank_line_break (JSON.spaces g) (m + g)) as Hlb.
    pose proof (blank_line_break (JSON.spaces g) m) as Hpost.
    rewrite (skip_ws_blank _ _ Hlb).
    change (String.append "}" rest) with (String "}" rest).
    match goal with
    | |- context [JSON.skip_ws (String.append (String.concat ?sep (?a :: ?l)) ?T)] =>
        assert (Hhead : exists s'',
                  JSON.skip_ws (String.append (String.concat sep (a :: l)) T)
                    = String JSON.dquote s'')
          by (destruct (concat_head sep a l T) as [T' ->];
              rewrite append_assoc, quote_append, skip_ws_stop by reflexivity; eauto)
    end.
    destruct Hhead as [s'' ->].
    change (Ascii.eqb JSON.dquote "}") with false. cbv iota.
    cbn [JSON.well_formed] in Hwf. apply andb_true_iff in Hwf as [Hdist Hwf].
    cbn [JSON.size] in Hfuel.
    pose proof (forallb_Forall_parses_back_props ((k, x) :: props) IHprops g (m + g) Hwf)
      as Hall.
    inversion Hall as [ | ? ? Hx Hrest' ]; subst.
    apply (parse_members_serialize _ _ _ _ props Hrest' Hlb Hpost k x fuel [] rest Hx Hdist).
    lia.
Qed.

(** *** Enough fuel *)

Lemma concat_length : forall (sep : string) (partial : list string),
  (1 <= String.length sep)%nat ->
  (list_sum (List.map (fun p => S (String.length p)) partial)
     <= S (String.length (String.concat sep partial)))%nat.
Proof.
  intros sep partial Hsep. induction partial as [ | p [ | q l ] IH ].
  - cbn. lia.
  - cbn. lia.
  - change (String.concat sep (p :: q :: l))
      with (String.append p (String.append sep (String.concat sep (q :: l)))).
    rewrite !length_append. cbn [List.map list_sum fold_right] in *. lia.
Qed.

Lemma wrap_length :
  forall (gap indent opening closing : string) (partial : list string),
    (1 <= String.length opening)%nat ->
    (1 <= String.length closing)%nat ->
    (list_sum (List.map (fun p => S (String.length p)) partial)
       < String.length (JSON.wrap gap indent opening closing partial))%nat.
Proof.
  intros gap indent opening closing partial Hopen Hclose. unfold JSON.wrap.
  destruct partial as [ | p l ].
  - rewrite length_append. cbn. lia.
  - cbv zeta. rewrite !length_append.
    pose proof (concat_length
                  (String "," (JSON.line_break gap (String.append indent gap)))
                  (p :: l) ltac:(cbn; lia)).
    lia.
Qed.

Lemma size_le_length : forall (v : JValue) (gap indent : string),
  (JSON.size v <= String.length (JSON.serialize gap indent v))%nat.
Proof.
  induction v as [ | b | n | s | xs IHxs | props IHprops ] using JValue_nested_ind;
    intros gap indent.
  - cbn. lia.
  - destruct b; cbn; lia.
  - cbn [JSON.serialize JSON.size]. destruct (number_head n) as (c & t & -> & _).
    cbn. lia.
  - cbn [JSON.serialize JSON.size]. unfold JSON.quote. cbn. lia.
  - cbn [JSON.serialize JSON.size].
    pose proof (wrap_length gap indent "[" "]"
                  (List.map (JSON.serialize gap (String.append indent gap)) xs)
                  ltac:(cbn; lia) ltac:(cbn; lia)) as Hw.
    assert (Hsum : (list_sum (List.map (fun x => S (JSON.size x)) xs)
                    <= list_sum
                         (List.map (fun p => S (String.length p))
                            (List.map (JSON.serialize gap (String.append indent gap)) xs)))%nat).
    { clear Hw. induction IHxs as [ | x xs Hx _ IH ]; [ cbn; lia | ].
      unfold list_sum in *. cbn [List.map fold_right].
      specialize (Hx gap (String.append indent gap)). lia. }
    lia.
  - cbn [JSON.serialize JSON.size].
    match goal with
    | |- context [JSON.wrap gap indent "{" "}" ?partial] =>
        pose proof (wrap_length gap indent "{" "}" partial
                      ltac:(cbn; lia) ltac:(cbn; lia)) as Hw;
        assert (Hsum :
          (list_sum
             (List.map (fun kv : string * JValue => let '(_, x) := kv in S (JSON.size x))
                props)
           <= list_sum (List.map (fun p => S (String.length p)) partial))%nat)
    end.
    { clear Hw. induction IHprops as [ | [k x] props Hx _ IH ]; [ cbn; lia | ].
      unfold list_sum in *. cbn [List.map fold_right]. rewrite !length_append.
      cbn [snd] in Hx. specialize (Hx gap (String.append indent gap)). lia. }
    lia.
Qed.

(** [JSON.parse] reads back what [JSON.stringify] wrote, whatever the
    indentation. *)
Theorem parse_stringify : forall (v : JValue) (space : nat),
  JSON.well_formed v = true ->
  JSON.parse (JSON.stringify v space) = inr v.
Proof.
  intros v space Hwf. unfold JSON.parse, JSON.stringify.
  set (text := JSON.serialize (JSON.spaces (Nat.min 10 space)) EmptyString v).
  pose proof (parse_value_serialize v Hwf (Nat.min 10 space) 0
                (S (String.length text)) EmptyString EmptyString) as Hp.
  change (JSON.spaces 0) with EmptyString in Hp. fold text in Hp.
  rewrite append_nil_l, append_nil_r in Hp.
  rewrite Hp; [ reflexivity | | reflexivity | reflexivity ].
  pose proof (size_le_length v (JSON.spaces (Nat.min 10 space)) EmptyString).
  fold text in H. lia.
Qed.

(** With the reference built-ins the round trip of an export needs no
    assumption on the parser or on the lower-casing: the file has the name
    the specification gives it, and any importable project with distinct
    keys whose optional fields are settled comes back unchanged, into any
    store. *)
Lemma export_import_reference :
  forall (w : World) (d : ProjectData) (title : string),
    projectData w = Some d ->
    JS.get "title" d = Some (JString title) ->
    importable d = true ->
    settled d = true ->
    JSON.well_formed (JObject d) = true ->
    let text := JSON.stringify (JObject d) 2 in
    let w1 := step JSON.parse JSON.stringify Str.toLowerCase w ExportProject in
    downloads w1 =
      (downloads w ++ [(SlugSpec.file_name (Str.toLowerCase title), text)])%list /\
    (forall (w0 : World) (answer : bool),
       projectData w0 = None \/ answer = true ->
       projectData
         (step JSON.parse JSON.stringify Str.toLowerCase w0 (ImportProject answer text))
         = Some d).
Proof.
  intros w d title Hpd Htitle Hok Hs Hwf. cbn zeta. split.
  - rewrite (step_exportProject JSON.parse JSON.stringify Str.toLowerCase
               w d title Hpd Htitle).
    cbn [downloads with_downloads].
    rewrite fileName_file_name by apply toLowerCase_no_capital. reflexivity.
  - intros w0 answer Hgo.
    destruct (import_accepted JSON.parse JSON.stringify Str.toLowerCase
                w0 answer (JSON.stringify (JObject d) 2) d Hgo
                (parse_stringify (JObject d) 2 Hwf) Hok) as (H1 & _).
    rewrite H1. f_equal. apply compatibilityChecks_fixed, Hs.
Qed.

(** ** The results at concrete inputs

    The handlers run with the reference [JSON.parse] and [JSON.stringify]
    and with [builtin_project] as the built-in project. *)

(** A first visit, with nothing in storage, renders the built-in project
    and stores it. *)
Lemma mount_first_visit :
  mount JSON.parse JSON.stringify builtin_project ∅ = Some (editing builtin_project).
Proof. vm_compute. reflexivity. Qed.

(** A first visit, an import of an old file, then a reset: the slot follows
    the state all along. *)
Lemma storage_follows_state_witness :
  exists w0,
    mount JSON.parse JSON.stringify builtin_project ∅ = Some w0 /\
    persisted JSON.stringify
      (run JSON.parse JSON.stringify Str.toLowerCase w0
         [ImportProject true (JSON.stringify (JObject legacy_project) 2);
          StartNewProject true]).
Proof.
  exact (storage_follows_state JSON.parse JSON.stringify Str.toLowerCase builtin_project ∅
           [ImportProject true (JSON.stringify (JObject legacy_project) 2);
            StartNewProject true]).
Defined.

(** The slot after the import alone, and after the reset. *)
Lemma storage_after_import_and_reset :
  let text := JSON.stringify (JObject legacy_project) 2 in
  let run_from_mount evs :=
    w0 ← mount JSON.parse JSON.stringify builtin_project ∅;
    Some (localStorage (run JSON.parse JSON.stringify Str.toLowerCase w0 evs) !! STORAGE_KEY) in
  run_from_mount [] = Some (Some (JSON.stringify (JObject builtin_project) 0)) /\
  run_from_mount [ImportProject true text]
    = Some (Some (JSON.stringify (JObject (compatibilityChecks legacy_project)) 0)) /\
  run_from_mount [ImportProject true text; StartNewProject false]
    = Some (Some (JSON.stringify (JObject (compatibilityChecks legacy_project)) 0)) /\
  run_from_mount [ImportProject true text; StartNewProject true] = Some None.
Proof.
  cbn zeta. repeat split; vm_compute; reflexivity.
Qed.

(** Resetting while the sample project is open. *)
Lemma startNewProject_confirm_decline_witness :
  let w := editing sample_project in
  let w' := step JSON.parse JSON.stringify Str.toLowerCase w (StartNewProject true) in
  projectData w' = None /\
  localStorage w' !! STORAGE_KEY = None /\
  dialogs w' = [Confirm RESET_PROMPT true].
Proof.
  exact (proj1 (startNewProject_confirm_decline JSON.parse JSON.stringify Str.toLowerCase
                  (editing sample_project))).
Defined.

(** The generation service fails while the sample project is open. *)
Lemma createProject_flag_and_failure_witness :
  let w := editing sample_project in
  let w' :=
    step JSON.parse JSON.stringify Str.toLowerCase w
      (CreateProjectSettled [("title", JString "Baru")] (inl network_error)) in
  projectData w' = Some sample_project /\
  localStorage w' = localStorage w /\
  dialogs w' = [Alert "Gagal membuat proyek baru. Error: Quota exceeded"].
Proof.
  exact (proj2 (proj2 (proj2 (createProject_flag_and_failure JSON.parse JSON.stringify Str.toLowerCase
                                [("title", JString "Baru")] (editing sample_project))))
           network_error).
Defined.

(** An empty slot and a slot holding a broken text both load the built-in
    project; the broken text is logged. *)
Lemma getInitialData_falls_back_witness :
  getInitialData JSON.parse builtin_project (page ∅)
    = (Normal (Some builtin_project), page ∅) /\
  let w := page {[ STORAGE_KEY := "{oops" ]} in
  fst (getInitialData JSON.parse builtin_project w) = Normal (Some builtin_project) /\
  same_store w (snd (getInitialData JSON.parse builtin_project w)) /\
  ("{oops" <> EmptyString ->
   console (snd (getInitialData JSON.parse builtin_project w))
     = [(LOAD_FAILED, JSON.SyntaxError)]).
Proof.
  split.
  - apply (getInitialData_falls_back JSON.parse builtin_project (page ∅)).
    vm_compute. reflexivity.
  - apply (proj2 (proj2 (getInitialData_falls_back JSON.parse builtin_project
                           (page {[ STORAGE_KEY := "{oops" ]})))
             "{oops" JSON.SyntaxError);
      vm_compute; reflexivity.
Defined.

(** A stored project with an empty title is dropped. *)
Lemma getInitialData_needs_title_and_authorInfo_witness :
  let text := JSON.q "{'title':'','authorInfo':{'name':'Sari'}}" in
  fst (getInitialData JSON.parse builtin_project (page {[ STORAGE_KEY := text ]}))
    = Normal (Some builtin_project).
Proof.
  intros text.
  refine (proj1 (getInitialData_needs_title_and_authorInfo JSON.parse builtin_project
                   (page {[ STORAGE_KEY := text ]}) text
                   (JObject [("title", JString EmptyString);
                             ("authorInfo", JObject [("name", JString "Sari")])])
                   _ _) _).
  - vm_compute. reflexivity.
  - vm_compute. reflexivity.
  - left. reflexivity.
Defined.


(** Exporting the sample project and importing the file again, over the
    project itself and, with no prompt, into a store emptied by a reset. *)
Lemma export_import_round_trip_witness :
  let w := editing sample_project in
  let text := JSON.stringify (JObject sample_project) 2 in
  let w1 := step JSON.parse JSON.stringify Str.toLowerCase w ExportProject in
  let w2 := step JSON.parse JSON.stringify Str.toLowerCase w1 (ImportProject true text) in
  let emptied := step JSON.parse JSON.stringify Str.toLowerCase w (StartNewProject true) in
  downloads w1 = [("proyek-akademik-analisis-data.json", text)] /\
  projectData w2 = Some sample_project /\
  dialogs w2 = [Confirm OVERWRITE_PROMPT true; Alert "Proyek berhasil diimpor!"] /\
  projectData emptied = None /\
  projectData
    (step JSON.parse JSON.stringify Str.toLowerCase emptied (ImportProject false text))
    = Some sample_project.
Proof.
  assert (Hparse : JSON.parse (JSON.stringify (JObject sample_project) 2)
                   = inr (JObject sample_project)) by (vm_compute; reflexivity).
  destruct (export_import_round_trip JSON.parse JSON.stringify Str.toLowerCase
              (editing sample_project) sample_project "Analisis Data!!"
              eq_refl eq_refl eq_refl eq_refl Hparse) as (H1 & H2 & H3 & _ & H5).
  cbn zeta. split; [ exact H1 | ]. split; [ exact H2 | ]. split; [ exact H3 | ].
  split; [ reflexivity | ].
  apply (H5 (step JSON.parse JSON.stringify Str.toLowerCase (editing sample_project)
               (StartNewProject true)) false).
  left. reflexivity.
Defined.


(** One call while editing, and a second call ten seconds later. *)
Lemma startHumanizingCooldown_timing_witness :
  let w := editing builtin_project in
  isHumanizingCooldown
    (step JSON.parse JSON.stringify Str.toLowerCase
       (step JSON.parse JSON.stringify Str.toLowerCase w StartHumanizingCooldown) (Elapse 14999))
    = true /\
  let w2 :=
    run JSON.parse JSON.stringify Str.toLowerCase w
      [StartHumanizingCooldown; Elapse 10000; StartHumanizingCooldown] in
  isHumanizingCooldown w2 = true /\
  isHumanizingCooldown (step JSON.parse JSON.stringify Str.toLowerCase w2 (Elapse 5000)) = false.
Proof.
  split.
  - apply (proj1 (proj2 (startHumanizingCooldown_timing JSON.parse JSON.stringify Str.toLowerCase
                           (editing builtin_project)))
             (@List.Forall_nil _ _) 14999%N).
  - apply (proj2 (proj2 (startHumanizingCooldown_timing JSON.parse JSON.stringify Str.toLowerCase
                           (editing builtin_project)))
             (@List.Forall_nil _ _) 10000%N 5000%N).
    reflexivity.
Defined.

(** Exporting the sample project: the reference [toLowerCase] leaves no
    capital in its title, and the file has the name the specification
    gives it. *)
Lemma exportProject_file_name_witness :
  let lowered := Str.toLowerCase "Analisis Data!!" in
  exportProject JSON.stringify Str.toLowerCase (editing sample_project) =
    (Normal tt,
     with_downloads
       [("proyek-akademik-analisis-data.json",
         JSON.stringify (JObject sample_project) 2)]
       (editing sample_project)) /\
  SlugSpec.no_capital lowered = true /\
  SlugSpec.slug lowered = "analisis-data" /\
  SlugSpec.file_name lowered = "proyek-akademik-analisis-data.json" /\
  Str.fileName (Str.sanitize (Str.toLowerCase "???")) = "proyek-akademik-tanpa-judul.json".
Proof.
  destruct (exportProject_file_name JSON.stringify Str.toLowerCase)
    as (Hgeneral & _ & Hfallback).
  destruct (Hgeneral (editing sample_project) sample_project "Analisis Data!!"
              eq_refl eq_refl) as [Hexport Hname].
  destruct (Hname eq_refl) as [Hfile Hslug].
  cbn zeta. split; [ exact Hexport | ]. split; [ reflexivity | ].
  split; [ rewrite <- Hslug; reflexivity | ].
  split; [ rewrite <- Hfile; reflexivity | ].
  exact (proj2 (Hfallback eq_refl)).
Defined.

(** *** Further properties at concrete inputs *)

(** Exporting a project whose title is a number. *)
Lemma exportProject_failures_witness :
  let w := editing [("title", JNumber 7); ("authorInfo", JObject [])] in
  let w' := step JSON.parse JSON.stringify Str.toLowerCase w ExportProject in
  dialogs w' = [Alert "Gagal mengekspor proyek."] /\
  (exists e, console w' = [("Failed to export project:", e)] /\
             exn_name e = "TypeError") /\
  downloads w' = [].
Proof.
  apply (proj2 (exportProject_failures JSON.parse JSON.stringify Str.toLowerCase
                  (editing [("title", JNumber 7); ("authorInfo", JObject [])]))
           [("title", JNumber 7); ("authorInfo", JObject [])]).
  - reflexivity.
  - intros title. discriminate.
Defined.

(** Replacing the sample project by an older one. *)
Lemma onProjectUpdate_replaces_witness :
  let w := editing sample_project in
  localStorage (step JSON.parse JSON.stringify Str.toLowerCase w (OnProjectUpdate legacy_project))
    = <[STORAGE_KEY := JSON.stringify (JObject legacy_project) 0]> (localStorage w).
Proof.
  apply (proj2 (proj2 (proj2 (proj2 (proj2 (proj2
           (onProjectUpdate_replaces JSON.parse JSON.stringify Str.toLowerCase
              (editing sample_project) legacy_project))))))).
  vm_compute. reflexivity.
Defined.

(** Importing an old file over the built-in project. *)
Lemma importProject_accepts_witness :
  let w := editing builtin_project in
  let text := JSON.stringify (JObject legacy_project) 2 in
  let w' := step JSON.parse JSON.stringify Str.toLowerCase w (ImportProject true text) in
  projectData w' = Some (compatibilityChecks legacy_project) /\
  dialogs w' = [Confirm OVERWRITE_PROMPT true; Alert "Proyek berhasil diimpor!"].
Proof.
  cbn zeta.
  refine ((fun H => conj (proj1 H) (proj1 (proj2 H)))
            (importProject_accepts JSON.parse JSON.stringify Str.toLowerCase
               (editing builtin_project) true
               (JSON.stringify (JObject legacy_project) 2) legacy_project _ _ _)).
  - right. reflexivity.
  - vm_compute. reflexivity.
  - reflexivity.
Defined.

(** A key of another part of the page, through an import and a reset. *)
Lemma other_keys_untouched_witness :
  let ls : gmap string string := {[ "theme" := "dark" ]} in
  let evs :=
    [ImportProject true (JSON.stringify (JObject legacy_project) 2);
     StartNewProject true] in
  exists w0,
    mount JSON.parse JSON.stringify builtin_project ls = Some w0 /\
    localStorage w0 !! "theme" = ls !! "theme" /\
    localStorage (run JSON.parse JSON.stringify Str.toLowerCase w0 evs) !! "theme" = ls !! "theme".
Proof.
  apply (other_keys_untouched JSON.parse JSON.stringify Str.toLowerCase builtin_project
           {[ "theme" := "dark" ]}
           [ImportProject true (JSON.stringify (JObject legacy_project) 2);
            StartNewProject true]
           "theme").
  discriminate.
Defined.

(** A failed creation, a broken import, an export and a declined reset. *)
Lemma project_absent_only_after_reset_witness :
  let evs :=
    [CreateProjectSettled [("title", JString "Baru")] (inl network_error);
     ImportProject true "{oops";
     ExportProject;
     StartNewProject false] in
  exists w0,
    mount JSON.parse JSON.stringify builtin_project ∅ = Some w0 /\
    projectData w0 <> None /\
    projectData (run JSON.parse JSON.stringify Str.toLowerCase w0 evs) <> None.
Proof.
  apply (project_absent_only_after_reset JSON.parse JSON.stringify Str.toLowerCase builtin_project ∅
           [CreateProjectSettled [("title", JString "Baru")] (inl network_error);
            ImportProject true "{oops";
            ExportProject;
            StartNewProject false]).
  reflexivity.
Defined.

(** An export leaves both flags alone. *)
Lemma flags_orthogonal_witness :
  let w := step JSON.parse JSON.stringify Str.toLowerCase (editing sample_project) StartHumanizingCooldown in
  isCreatingProject (step JSON.parse JSON.stringify Str.toLowerCase w ExportProject) = false /\
  isHumanizingCooldown (step JSON.parse JSON.stringify Str.toLowerCase w ExportProject) = true.
Proof.
  cbn zeta.
  pose proof (flags_orthogonal JSON.parse JSON.stringify Str.toLowerCase
                (step JSON.parse JSON.stringify Str.toLowerCase (editing sample_project)
                   StartHumanizingCooldown)
                ExportProject) as (Hc & Hh & _).
  split; [ exact (Hc eq_refl) | exact (Hh eq_refl) ].
Defined.

(** Reloading while the sample project is open. *)
Lemma reload_restores_project_witness :
  exists w',
    reload JSON.parse JSON.stringify builtin_project (editing sample_project) = Some w' /\
    projectData w' = Some sample_project /\
    localStorage w' = localStorage (editing sample_project) /\
    isCreatingProject w' = false /\
    isHumanizingCooldown w' = false.
Proof.
  apply (reload_restores_project JSON.parse JSON.stringify builtin_project
           (editing sample_project) sample_project).
  - vm_compute. reflexivity.
  - reflexivity.
  - vm_compute. discriminate.
  - vm_compute. reflexivity.
  - reflexivity.
  - reflexivity.
Defined.

(** Reloading while a project with an empty title is open. *)
Lemma reload_drops_unloadable_witness :
  let d := [("title", JString EmptyString); ("authorInfo", JObject [("name", JString "Sari")])] in
  let w := editing d in
  localStorage w !! STORAGE_KEY = Some (JSON.stringify (JObject d) 0) /\
  exists w',
    reload JSON.parse JSON.stringify builtin_project w = Some w' /\
    projectData w' = Some builtin_project /\
    localStorage w' !! STORAGE_KEY = Some (JSON.stringify (JObject builtin_project) 0).
Proof.
  intros d w.
  apply (reload_drops_unloadable JSON.parse JSON.stringify builtin_project w d).
  - vm_compute. reflexivity.
  - reflexivity.
  - vm_compute. reflexivity.
  - reflexivity.
Defined.

(** An old file is imported, then the page is reloaded. *)
Lemma imported_project_survives_reload_witness :
  let text := JSON.stringify (JObject legacy_project) 2 in
  exists w',
    reload JSON.parse JSON.stringify builtin_project
      (step JSON.parse JSON.stringify Str.toLowerCase (editing builtin_project) (ImportProject true text))
      = Some w' /\
    projectData w' = Some (compatibilityChecks legacy_project).
Proof.
  intros text.
  apply (imported_project_survives_reload JSON.parse JSON.stringify Str.toLowerCase builtin_project
           (editing builtin_project) true text legacy_project).
  - vm_compute. reflexivity.
  - right. reflexivity.
  - vm_compute. reflexivity.
  - reflexivity.
  - vm_compute. discriminate.
  - vm_compute. reflexivity.
Defined.

(** An old file is imported, exported and imported again. *)
Lemma imported_project_round_trips_witness :
  let text := JSON.stringify (JObject legacy_project) 2 in
  let exported := JSON.stringify (JObject (compatibilityChecks legacy_project)) 2 in
  let w1 := step JSON.parse JSON.stringify Str.toLowerCase (editing builtin_project) (ImportProject true text) in
  let w2 := step JSON.parse JSON.stringify Str.toLowerCase w1 ExportProject in
  projectData w1 = Some (compatibilityChecks legacy_project) /\
  downloads w2 = (downloads w1 ++ [("proyek-akademik-skripsi.json", exported)])%list /\
  projectData (step JSON.parse JSON.stringify Str.toLowerCase w2 (ImportProject true exported))
    = Some (compatibilityChecks legacy_project).
Proof.
  intros text.
  apply (imported_project_round_trips JSON.parse JSON.stringify Str.toLowerCase
           (editing builtin_project) true text "Skripsi" legacy_project).
  - right. reflexivity.
  - vm_compute. reflexivity.
  - reflexivity.
  - reflexivity.
  - vm_compute. reflexivity.
Defined.

(** The request sent for a form with one field besides the title and the
    level. *)
Lemma createProject_request_witness :
  let formData :=
    [("title", JString "Baru"); ("academicLevel", JString "S1");
     ("name", JString "Sari")] in
  exists authorInfo,
    requests (step JSON.parse JSON.stringify Str.toLowerCase (editing builtin_project)
                (CreateProject formData))
      = [(authorInfo, Some (JString "Baru"), Some (JString "S1"))] /\
    JS.get "title" authorInfo = None /\
    JS.get "name" authorInfo = Some (JString "Sari").
Proof.
  intros formData.
  destruct (createProject_request JSON.parse JSON.stringify Str.toLowerCase formData
              (editing builtin_project)) as (a & Hreq & Ht & _ & Hk & _).
  exists a. split; [ exact Hreq | ]. split; [ exact Ht | ].
  apply (Hk "name"); discriminate.
Defined.

(** Fifteen seconds after a call made while editing. *)
Lemma startHumanizingCooldown_schedules_witness :
  let w := editing builtin_project in
  let w2 :=
    step JSON.parse JSON.stringify Str.toLowerCase
      (step JSON.parse JSON.stringify Str.toLowerCase w StartHumanizingCooldown) (Elapse 15000) in
  isHumanizingCooldown w2 = false /\
  now w2 = 15000%N /\
  timers w2 = [].
Proof.
  apply (proj2 (proj2 (proj2 (proj2 (proj2
           (startHumanizingCooldown_schedules JSON.parse JSON.stringify Str.toLowerCase
              (editing builtin_project))))))
           15000%N).
  vm_compute. discriminate.
Defined.

(** The keys of an old project after the compatibility lines. *)
Lemma compatibilityChecks_keeps_keys_witness :
  List.NoDup (List.map fst (compatibilityChecks legacy_project)).
Proof.
  apply (proj2 (proj2 (compatibilityChecks_keeps_keys legacy_project))).
  repeat constructor; cbn; intros H;
    repeat (destruct H as [H | H]; [ discriminate H | ]); exact H.
Defined.

(** A stored project saved before the optional fields existed is what
    the loader returns, after the compatibility lines. *)
Lemma getInitialData_result_witness :
  let text := JSON.stringify (JObject legacy_project) 0 in
  let w := page {[ STORAGE_KEY := text ]} in
  exists d,
    fst (getInitialData JSON.parse builtin_project w) = Normal (Some d) /\
    d = compatibilityChecks legacy_project.
Proof.
  intros text w.
  destruct (getInitialData_result JSON.parse builtin_project w)
    as (d & Hd & _ & Hstored & _).
  exists d. split; [ exact Hd | ].
  apply (Hstored text legacy_project).
  - reflexivity.
  - vm_compute. discriminate.
  - vm_compute. reflexivity.
  - reflexivity.
Defined.

(** The file name for the sample project. *)
Lemma exportProject_name_is_safe_witness :
  exists name,
    downloads (step JSON.parse JSON.stringify Str.toLowerCase (editing sample_project) ExportProject) =
      (downloads (editing sample_project) ++
       [(String.append "proyek-akademik-" (String.append name ".json"),
         JSON.stringify (JObject sample_project) 2)])%list /\
    safe_slug name = true /\
    name <> EmptyString.
Proof.
  apply (exportProject_name_is_safe JSON.parse JSON.stringify Str.toLowerCase
           (editing sample_project) sample_project "Analisis Data!!");
    reflexivity.
Defined.


(** *** Where the specification and the code part *)

(** C4 as stated fails.  A complete project with an empty preface is
    exported and the file imported again with the prompt confirmed: the
    import succeeds and the store then holds a project whose preface is the
    placeholder, not the empty string. *)
Lemma export_import_loses_blank_preface :
  let w := editing blank_preface_project in
  let text := JSON.stringify (JObject blank_preface_project) 2 in
  let w1 := step JSON.parse JSON.stringify Str.toLowerCase w ExportProject in
  let w2 := step JSON.parse JSON.stringify Str.toLowerCase w1 (ImportProject true text) in
  projectData w = Some blank_preface_project /\
  downloads w1 = [("proyek-akademik-analisis-data.json", text)] /\
  dialogs w2 = [Confirm OVERWRITE_PROMPT true; Alert "Proyek berhasil diimpor!"] /\
  JS.get "preface" blank_preface_project = Some (JString EmptyString) /\
  (projectData w2 ≫= JS.get "preface") = Some PREFACE_PLACEHOLDER /\
  projectData w2 <> Some blank_preface_project.
Proof.
  cbn zeta. repeat split; try (vm_compute; reflexivity).
  intros Heq.
  assert (Hp : (projectData
                  (step JSON.parse JSON.stringify Str.toLowerCase
                     (step JSON.parse JSON.stringify Str.toLowerCase (editing blank_preface_project)
                        ExportProject)
                     (ImportProject true
                        (JSON.stringify (JObject blank_preface_project) 2)))
                ≫= JS.get "preface") = Some PREFACE_PLACEHOLDER)
    by (vm_compute; reflexivity).
  rewrite Heq in Hp. vm_compute in Hp. discriminate Hp.
Qed.


(** C6 as stated fails.  A second call ten seconds after the first, while
    the flag is set, does not keep the flag set for fifteen more seconds:
    five seconds later the first call's timer clears it. *)
Lemma second_call_does_not_restart :
  let w := editing builtin_project in
  let w2 :=
    run JSON.parse JSON.stringify Str.toLowerCase w
      [StartHumanizingCooldown; Elapse 10000; StartHumanizingCooldown] in
  isHumanizingCooldown
    (run JSON.parse JSON.stringify Str.toLowerCase w [StartHumanizingCooldown; Elapse 10000])
    = true /\
  isHumanizingCooldown w2 = true /\
  isHumanizingCooldown (step JSON.parse JSON.stringify Str.toLowerCase w2 (Elapse 4999)) = true /\
  isHumanizingCooldown (step JSON.parse JSON.stringify Str.toLowerCase w2 (Elapse 5000)) = false /\
  (5000 < COOLDOWN_MS)%N.
Proof.
  cbn zeta. repeat split; vm_compute; reflexivity.
Qed.
